(** * ImageProcessor: resize, pad and store images (src/image_processor.py)

    A shallow embedding of the [ImageProcessor] class and of the entry
    point of main.py.  Python integers are [Z]; Python floats are IEEE 754
    binary64 values, computed with the executable specification of the
    Standard Library ([SpecFloat], precision 53, exponent bound 1024);
    exceptions are an explicit result type; the file system, the clock and
    the image files are a platform interface the methods are written
    against. *)

From Stdlib Require Import ZArith Lia Bool List String Ascii.
From Stdlib Require Import Floats.SpecFloat.
Import ListNotations.

Local Open Scope string_scope.
Local Open Scope Z_scope.

(** ** Exceptions and results *)

Inductive exn : Type :=
| ValueError (msg : string)
| ZeroDivisionError
| OverflowError
| TypeError (msg : string)
| MemoryError
| OSError (path : string).

Inductive result (A : Type) : Type :=
| Ok (a : A)
| Raise (e : exn).

Arguments Ok {A} a.
Arguments Raise {A} e.

Definition rbind {A B : Type} (r : result A) (k : A -> result B) : result B :=
  match r with
  | Ok a => k a
  | Raise e => Raise e
  end.

Declare Scope result_scope.
Delimit Scope result_scope with result.
Notation "'let?' x ':=' r 'in' k" := (rbind r (fun x => k))
  (at level 10, x name, r at level 100, k at level 200) : result_scope.
Local Open Scope result_scope.

(** ** Python numbers *)

Module PyNum.

Definition prec : Z := 53.
Definition emax : Z := 1024.

(** A Python [float]. *)
Definition float : Type := spec_float.

(** An integer taken as it is, before any rounding. *)
Definition exact (n : Z) : float :=
  match n with
  | Z0 => S754_zero false
  | Zpos p => S754_finite false p 0
  | Zneg p => S754_finite true p 0
  end.

(** [float(n)]: the integer rounded to the nearest double, ties to even;
    OverflowError when it is too large. *)
Definition float_of_int (n : Z) : result float :=
  match binary_normalize prec emax n 0 false with
  | S754_infinity _ => Raise OverflowError
  | f => Ok f
  end.

(** [a / b] on two integers: the correctly rounded quotient. *)
Definition truediv (a b : Z) : result float :=
  if b =? 0 then Raise ZeroDivisionError
  else match SFdiv prec emax (exact a) (exact b) with
       | S754_infinity _ => Raise OverflowError
       | f => Ok f
       end.

(** [n * f] with an integer on the left: the integer is converted first,
    the product itself never raises. *)
Definition mul_int_float (n : Z) (f : float) : result float :=
  let? x := float_of_int n in Ok (SFmul prec emax x f).

(** [int(f)]: truncation toward zero. *)
Definition int_of_float (f : float) : result Z :=
  match f with
  | S754_zero _ => Ok 0
  | S754_infinity _ => Raise OverflowError
  | S754_nan => Raise (ValueError "cannot convert float NaN to integer")
  | S754_finite s m e => Ok (cond_Zopp s (Z.shiftl (Zpos m) e))
  end.

(** [int(n * (a / b))], the expression of both non-square branches of
    resize_to_square. *)
Definition scale (n a b : Z) : result Z :=
  let? q := truediv a b in
  let? p := mul_int_float n q in
  int_of_float p.

End PyNum.

(** ** os.path on a POSIX system *)

Module PosixPath.

Definition sep : ascii := "/"%char.

Definition startswith_sep (p : string) : bool :=
  match p with
  | String c _ => Ascii.eqb c sep
  | EmptyString => false
  end.

Fixpoint endswith_sep (p : string) : bool :=
  match p with
  | EmptyString => false
  | String c EmptyString => Ascii.eqb c sep
  | String _ r => endswith_sep r
  end.

(** [os.path.join(a, b)]. *)
Definition join (a b : string) : string :=
  if startswith_sep b then b
  else if (String.eqb a "" || endswith_sep a)%bool then a ++ b
  else a ++ String sep b.

(** [p.rfind("/")]: the index of the last separator, or -1. *)
Fixpoint rfind_sep (p : string) : Z :=
  match p with
  | EmptyString => -1
  | String c r =>
      let i := rfind_sep r in
      if 0 <=? i then i + 1
      else if Ascii.eqb c sep then 0 else -1
  end.

(** [p[i:]] for a non-negative [i]. *)
Fixpoint slice_from (i : nat) (p : string) : string :=
  match i, p with
  | O, _ => p
  | S _, EmptyString => EmptyString
  | S j, String _ r => slice_from j r
  end.

(** [os.path.basename(p)]: [i = p.rfind(sep) + 1; return p[i:]]. *)
Definition basename (p : string) : string :=
  let i := rfind_sep p + 1 in
  slice_from (Z.to_nat i) p.

End PosixPath.

(** ** datetime and strftime *)

Record datetime : Type := {
  year : Z;
  month : Z;
  day : Z;
  hour : Z;
  minute : Z;
  second : Z
}.

(** The values a [datetime] object can hold. *)
Definition valid_datetime (t : datetime) : Prop :=
  1 <= year t <= 9999 /\ 1 <= month t <= 12 /\ 1 <= day t <= 31 /\
  0 <= hour t <= 23 /\ 0 <= minute t <= 59 /\ 0 <= second t <= 59.

Definition digit_char (d : Z) : ascii :=
  ascii_of_nat (48 + Z.to_nat d).

Definition is_digit (c : ascii) : bool :=
  let n := nat_of_ascii c in (Nat.leb 48 n && Nat.leb n 57)%bool.

Fixpoint decimal_digits (fuel : nat) (n : Z) (acc : string) : string :=
  match fuel with
  | O => acc
  | S k =>
      let acc' := String (digit_char (n mod 10)) acc in
      if n <? 10 then acc' else decimal_digits k (n / 10) acc'
  end.

(** A non-negative integer in decimal, without padding (C's [%d]). *)
Definition decimal (n : Z) : string :=
  decimal_digits (S (Z.to_nat (Z.log2 n))) n "".

(** C's [%02d]. *)
Definition decimal2 (n : Z) : string :=
  if n <? 10 then String "0" (decimal n) else decimal n.

(** One conversion of the format.  [%Y] is the year in decimal as the C
    library prints it; the two-digit fields are zero padded; a conversion
    this development does not use is left as written. *)
Definition directive (c : ascii) (t : datetime) : string :=
  if Ascii.eqb c "Y" then decimal (year t)
  else if Ascii.eqb c "m" then decimal2 (month t)
  else if Ascii.eqb c "d" then decimal2 (day t)
  else if Ascii.eqb c "H" then decimal2 (hour t)
  else if Ascii.eqb c "M" then decimal2 (minute t)
  else if Ascii.eqb c "S" then decimal2 (second t)
  else if Ascii.eqb c "%" then "%"
  else String "%" (String c "").

(** [t.strftime(fmt)]. *)
Fixpoint strftime (fmt : string) (t : datetime) : string :=
  match fmt with
  | EmptyString => EmptyString
  | String c rest =>
      if Ascii.eqb c "%" then
        match rest with
        | String d rest' => directive d t ++ strftime rest' t
        | EmptyString => String c EmptyString
        end
      else String c (strftime rest t)
  end.

(** ** In-memory images (PIL.Image) *)

(** A colour as Python passes it around: a tuple of integers. *)
Definition color : Type := list Z.

(** One band of one pixel as [getpixel] gives it: an integer, or a float
    for the floating-point mode. *)
Inductive sample : Type :=
| Int (v : Z)
| Float (f : PyNum.float).

(** A pixel: one sample per band of the mode. *)
Definition pixel : Type := list sample.

(** A decoded raster: colour mode, dimensions and pixel data.  Only the
    pixels at [0 <= x < width], [0 <= y < height] are part of the image. *)
Record Image : Type := {
  mode : string;
  width : Z;
  height : Z;
  getpixel : Z -> Z -> pixel
}.

(** [img.size]. *)
Definition Image_size (img : Image) : Z * Z := (width img, height img).

(** [dst.paste(src, box)] with a two-element box: the pixels of [src] are
    written from the corner [box] on, clipped to [dst], which keeps its
    mode and size. *)
Definition Image_paste (dst src : Image) (box : Z * Z) : Image :=
  let '(x0, y0) := box in
  {| mode := mode dst;
     width := width dst;
     height := height dst;
     getpixel := fun x y =>
       if ((x0 <=? x) && (x <? x0 + width src) &&
           (y0 <=? y) && (y <? y0 + height src))%bool
       then getpixel src (x - x0) (y - y0)
       else getpixel dst x y |}.

(** The channels of a colour mode, as the codec's mode table has them. *)
Definition getbands (m : string) : Z :=
  if String.eqb m "RGB" then 3
  else if String.eqb m "YCbCr" then 3
  else if String.eqb m "LAB" then 3
  else if String.eqb m "HSV" then 3
  else if String.eqb m "RGBA" then 4
  else if String.eqb m "RGBX" then 4
  else if String.eqb m "CMYK" then 4
  else if String.eqb m "LA" then 2
  else if String.eqb m "PA" then 2
  else 1.

(** *** The ink of a fill colour

    What the codec makes of the colour given to [Image.new], for the modes
    stored as 8-bit bands. *)

(** The number of bands of a mode stored as 8-bit bands; [None] for the
    other modes (I, F, I;16 and its variants, and strings that are no
    mode). *)
Definition bands8 (m : string) : option Z :=
  if String.eqb m "1" then Some 1
  else if String.eqb m "L" then Some 1
  else if String.eqb m "P" then Some 1
  else if String.eqb m "LA" then Some 2
  else if String.eqb m "PA" then Some 2
  else if String.eqb m "La" then Some 2
  else if String.eqb m "RGB" then Some 3
  else if String.eqb m "YCbCr" then Some 3
  else if String.eqb m "LAB" then Some 3
  else if String.eqb m "HSV" then Some 3
  else if String.eqb m "RGBA" then Some 4
  else if String.eqb m "RGBX" then Some 4
  else if String.eqb m "RGBa" then Some 4
  else if String.eqb m "CMYK" then Some 4
  else None.

(** C's [long long] and [int], into which the codec parses a colour. *)
Definition fits_long_long (v : Z) : bool := ((- 2 ^ 63 <=? v) && (v <? 2 ^ 63))%bool.
Definition fits_int (v : Z) : bool := ((- 2 ^ 31 <=? v) && (v <? 2 ^ 31))%bool.

(** A band value clamped to a byte, and one cut to its low byte. *)
Definition clip8 (v : Z) : Z := if v <=? 0 then 0 else if v <? 256 then v else 255.
Definition uint8 (v : Z) : Z := v mod 256.

(** The three colour bands of a three- or four-element colour. *)
Definition rgb_ink (r g b : Z) : pixel := [Int (clip8 r); Int (clip8 g); Int (clip8 b)].

(** The ink of colour [c] in a mode of [bands] 8-bit bands.  A one-element
    tuple stands for its element, an integer: a single band takes it
    clamped, several bands take its bytes, lowest first (so 114 is 114 in
    the first band and 0 in the others).  A longer tuple gives one clamped
    value per band and must have a length the mode accepts. *)
Definition uint8_ink (bands : Z) (c : color) : result pixel :=
  match c with
  | [r] =>
      if negb (fits_long_long r) then Raise OverflowError
      else if bands =? 1 then Ok [Int (clip8 r)]
      else if bands =? 2 then Ok [Int (uint8 r); Int (uint8 (Z.shiftr r 24))]
      else if bands =? 3 then
        Ok [Int (uint8 r); Int (uint8 (Z.shiftr r 8)); Int (uint8 (Z.shiftr r 16))]
      else
        Ok [Int (uint8 r); Int (uint8 (Z.shiftr r 8)); Int (uint8 (Z.shiftr r 16));
            Int (uint8 (Z.shiftr r 24))]
  | _ =>
      if bands =? 1 then
        Raise (TypeError "color must be int or single-element tuple")
      else if bands =? 2 then
        match c with
        | [r; a] =>
            if (fits_long_long r && fits_int a)%bool
            then Ok [Int (clip8 r); Int (clip8 a)]
            else Raise OverflowError
        | _ => Raise (TypeError "color must be int, or tuple of one or two elements")
        end
      else
        match c with
        | [r; g; b] =>
            if (fits_long_long r && fits_int g && fits_int b)%bool
            then Ok (rgb_ink r g b ++ (if bands =? 4 then [Int 255] else []))%list
            else Raise OverflowError
        | [r; g; b; a] =>
            if (fits_long_long r && fits_int g && fits_int b && fits_int a)%bool
            then Ok (rgb_ink r g b ++ (if bands =? 4 then [Int (clip8 a)] else []))%list
            else Raise OverflowError
        | _ =>
            Raise (TypeError
                     "color must be int, or tuple of one, three or four elements")
        end
  end.

(** The modes [img.resize] converts to premultiplied alpha and back. *)
Definition premultiplied (m : string) : bool :=
  (String.eqb m "LA" || String.eqb m "RGBA")%bool.

(** ** The platform: file system, clock and image files *)

Class Platform (W : Type) : Type := {
  (** [os.getcwd()] *)
  getcwd : W -> string;
  (** [os.path.isdir(path)] *)
  isdir : string -> W -> bool;
  (** [os.makedirs(path, exist_ok=True)] *)
  makedirs : string -> W -> result unit * W;
  (** [os.listdir(path)] *)
  listdir : string -> W -> result (list string) * W;
  (** [datetime.now()] *)
  now : W -> datetime;
  (** [Image.open(path)] *)
  Image_open : string -> W -> result Image * W;
  (** [img.save(path)] *)
  Image_save : Image -> string -> W -> result unit * W;
  (** the pixel data [img.resize((w, h))] computes *)
  resample : Image -> Z -> Z -> Z -> Z -> pixel;
  (** whether the codec finds the memory [Image.new(mode, (w, h))] needs *)
  new_allocates : string -> Z -> Z -> bool;
  (** whether the codec finds the memory [img.resize((w, h))] needs *)
  resize_allocates : Image -> Z -> Z -> bool;
  (** the ink of a fill colour where it is not written out here: the modes
      not stored as 8-bit bands, and a palette image given a colour of
      three or four elements, which goes through a new palette *)
  other_ink : string -> color -> result pixel
}.

(** A computation that may raise and that acts on the world; what was
    done before an exception stays done. *)
Definition io (W A : Type) : Type := W -> result A * W.

Definition io_ret {W A : Type} (a : A) : io W A := fun w => (Ok a, w).

Definition io_raise {W A : Type} (e : exn) : io W A := fun w => (Raise e, w).

Definition io_bind {W A B : Type} (c : io W A) (k : A -> io W B) : io W B :=
  fun w =>
    match c w with
    | (Ok a, w') => k a w'
    | (Raise e, w') => (Raise e, w')
    end.

Definition io_lift {W A : Type} (r : result A) : io W A := fun w => (r, w).

Declare Scope io_scope.
Delimit Scope io_scope with io.
Notation "x <- c ;; k" := (io_bind c (fun x => k))
  (at level 61, c at next level, right associativity) : io_scope.
Notation "c ;;; k" := (io_bind c (fun _ => k))
  (at level 61, right associativity) : io_scope.

(** [for x in xs: body(x)]. *)
Fixpoint for_each {W A : Type} (xs : list A) (body : A -> io W unit) : io W unit :=
  match xs with
  | [] => io_ret tt
  | x :: rest => io_bind (body x) (fun _ => for_each rest body)
  end.

(** ** class ImageProcessor *)

Record ImageProcessor : Type := {
  source_folder : string;
  target_size : Z
}.

Definition TARGET_SIZE : Z := 640.
Definition OUTPUT_FOLDER : string := "dataset".
Definition DATE_FORMAT : string := "%Y%m%d%H%M%S".

(** The default of [dimension] in resize_to_square. *)
Definition default_dimension : Z := 0.

(** The default of [pad_color] in apply_padding. *)
Definition default_pad_color : color := [114; 114; 114].

Definition invalid_source_folder : exn :=
  ValueError
    "Invalid source folder. Please specify a valid folder with set_source_folder().".

(** [ImageProcessor(source_folder, target_size)]; an argument left out is
    [None] and takes its default. *)
Definition __init__ (source_folder : option string) (target_size : option Z)
  : ImageProcessor :=
  {| source_folder := match source_folder with Some s => s | None => "" end;
     target_size := match target_size with Some n => n | None => TARGET_SIZE end |}.

(** [dimension or self.target_size]. *)
Definition dimension_or_target (self : ImageProcessor) (dimension : Z) : Z :=
  if dimension =? 0 then target_size self else dimension.

(** The [(new_width, new_height)] of resize_to_square. *)
Definition new_dimensions (width height size : Z) : result (Z * Z) :=
  if width >? height then
    let new_width := size in
    let? new_height := PyNum.scale height size width in
    Ok (new_width, new_height)
  else if height >? width then
    let? new_width := PyNum.scale width size height in
    let new_height := size in
    Ok (new_width, new_height)
  else Ok (size, size).

Section Methods.

Context {W : Type} `{Platform W}.

(** The ink of a fill colour for a mode. *)
Definition fill_ink (m : string) (c : color) : result pixel :=
  match bands8 m with
  | Some n =>
      if (String.eqb m "P" &&
          (Nat.eqb (List.length c) 3 || Nat.eqb (List.length c) 4))%bool
      then other_ink m c
      else uint8_ink n c
  | None => other_ink m c
  end.

(** [Image.new(mode, size, color)] for the mode of an existing image: a
    canvas every pixel of which is the ink of [color].  A negative side is
    refused, a side that does not fit a C int overflows, and the canvas
    needs its memory. *)
Definition Image_new (m : string) (sz : Z * Z) (c : color) : result Image :=
  let '(w, h) := sz in
  if ((w <? 0) || (h <? 0))%bool
  then Raise (ValueError "Width and height must be >= 0")
  else if ((2 ^ 31 <=? w) || (2 ^ 31 <=? h))%bool then Raise OverflowError
  else if negb (new_allocates m w h) then Raise MemoryError
  else
    let? ink := fill_ink m c in
    Ok {| mode := m; width := w; height := h; getpixel := fun _ _ => ink |}.

(** [img.resize((w, h))]: a new raster in the mode of [img].  The size the
    image already has gives a copy; otherwise the sides must fit a C int
    and be at least 1, and the new raster holds the resampled pixels.  The
    copy and the new raster need their memory, and so does the conversion
    an LA or RGBA image goes through before anything else. *)
Definition Image_resize (img : Image) (sz : Z * Z) : result Image :=
  let '(w, h) := sz in
  if ((w =? width img) && (h =? height img))%bool then
    if resize_allocates img w h
    then Ok {| mode := mode img; width := w; height := h;
               getpixel := getpixel img |}
    else Raise MemoryError
  else if (premultiplied (mode img) && negb (resize_allocates img w h))%bool
  then Raise MemoryError
  else if (negb (fits_int w) || negb (fits_int h))%bool then Raise OverflowError
  else if ((w <? 1) || (h <? 1))%bool
  then Raise (ValueError "height and width must be > 0")
  else if resize_allocates img w h
  then Ok {| mode := mode img; width := w; height := h;
             getpixel := resample img w h |}
  else Raise MemoryError.

Definition resize_to_square (self : ImageProcessor) (img : Image) (dimension : Z)
  : result Image :=
  let size := dimension_or_target self dimension in
  let '(width, height) := Image_size img in
  let? dims := new_dimensions width height size in
  Image_resize img dims.

Definition apply_padding (self : ImageProcessor) (resized_img : Image)
  (pad_color : color) : result Image :=
  let '(width, height) := Image_size resized_img in
  if width =? height then Ok resized_img
  else
    let color := if String.eqb (mode resized_img) "RGB" then pad_color else [114] in
    let? square_img :=
      Image_new (mode resized_img) (target_size self, target_size self) color in
    Ok (Image_paste square_img resized_img (0, 0)).

Definition store_image (img : Image) (original_img_path output_dir : string)
  : io W unit :=
  let img_name := PosixPath.basename original_img_path in
  let save_path := PosixPath.join output_dir img_name in
  Image_save img save_path.

Definition create_output_folder (self : ImageProcessor) : io W string :=
  fun w =>
    let timestamped_folder := strftime DATE_FORMAT (now w) in
    (Ok (PosixPath.join OUTPUT_FOLDER timestamped_folder), w).

Definition set_source_folder (self : ImageProcessor) (path : string)
  : ImageProcessor :=
  {| source_folder := path; target_size := target_size self |}.

Definition process_single_image (self : ImageProcessor)
  (image_path output_dir : string) : io W unit :=
  (img <- Image_open image_path ;;
   resized <- io_lift (resize_to_square self img default_dimension) ;;
   padded <- io_lift (apply_padding self resized default_pad_color) ;;
   store_image padded image_path output_dir)%io.

Definition process_images_in_folder (self : ImageProcessor) : io W unit :=
  fun w =>
    if negb (isdir (source_folder self) w) then io_raise invalid_source_folder w
    else
      (output_dir <- create_output_folder self ;;
       makedirs output_dir ;;;
       entries <- listdir (source_folder self) ;;
       for_each entries (fun img_file =>
         let image_path := PosixPath.join (source_folder self) img_file in
         process_single_image self image_path output_dir))%io w.

(** main.py *)
Definition main : io W unit :=
  fun w =>
    let input_path := PosixPath.join (getcwd w) "input_images" in
    let processor := __init__ (Some input_path) None in
    process_images_in_folder processor w.

(** *** The processor as a state machine

    Every method call with its arguments; [call] runs the method, on the
    processor and the world it is given, and records what it returns, the
    processor as the call leaves it and the world then. *)
Inductive operation : Type :=
| Process_images_in_folder
| Process_single_image (image_path output_dir : string)
| Resize_to_square (img : Image) (dimension : Z)
| Apply_padding (resized_img : Image) (pad_color : color)
| Store_image (img : Image) (original_img_path output_dir : string)
| Create_output_folder
| Set_source_folder (path : string).

Inductive outcome : Type :=
| Returned_none (r : result unit)
| Returned_image (r : result Image)
| Returned_str (r : result string).

Record after : Type := {
  returned : outcome;
  processor : ImageProcessor;
  world : W
}.

Definition call (op : operation) (self : ImageProcessor) (w : W) : after :=
  match op with
  | Process_images_in_folder =>
      let '(r, w') := process_images_in_folder self w in
      {| returned := Returned_none r; processor := self; world := w' |}
  | Process_single_image p o =>
      let '(r, w') := process_single_image self p o w in
      {| returned := Returned_none r; processor := self; world := w' |}
  | Resize_to_square img d =>
      {| returned := Returned_image (resize_to_square self img d);
         processor := self; world := w |}
  | Apply_padding img c =>
      {| returned := Returned_image (apply_padding self img c);
         processor := self; world := w |}
  | Store_image i p o =>
      let '(r, w') := store_image i p o w in
      {| returned := Returned_none r; processor := self; world := w' |}
  | Create_output_folder =>
      let '(r, w') := create_output_folder self w in
      {| returned := Returned_str r; processor := self; world := w' |}
  | Set_source_folder p =>
      {| returned := Returned_none (Ok tt);
         processor := set_source_folder self p; world := w |}
  end.

(** The folder a sequence of calls leaves configured: the argument of its
    last set_source_folder, or [folder] when it has none. *)
Fixpoint last_source_folder (ops : list operation) (folder : string) : string :=
  match ops with
  | [] => folder
  | Set_source_folder p :: rest => last_source_folder rest p
  | _ :: rest => last_source_folder rest folder
  end.

(** A sequence of calls, whatever each one returns or raises. *)
Fixpoint run (ops : list operation) (self : ImageProcessor) (w : W)
  : ImageProcessor * W :=
  match ops with
  | [] => (self, w)
  | op :: rest =>
      let a := call op self w in run rest (processor a) (world a)
  end.

End Methods.

(** ** A small in-memory platform

    Directories are a list of paths, files an association list from path
    to raster, the clock a fixed reading; resizing samples the nearest
    source pixel.  It runs the methods on concrete inputs. *)

Record SimWorld : Type := {
  sim_cwd : string;
  sim_dirs : list string;
  sim_files : list (string * Image);
  sim_clock : datetime
}.

Fixpoint strip_prefix (pre s : string) : option string :=
  match pre, s with
  | EmptyString, _ => Some s
  | String a pre', String b s' =>
      if Ascii.eqb a b then strip_prefix pre' s' else None
  | String _ _, EmptyString => None
  end.

(** The name of [path] inside directory [d], when it lies directly in it. *)
Definition entry_name (d path : string) : option string :=
  match strip_prefix (d ++ String PosixPath.sep "") path with
  | Some name =>
      if (negb (String.eqb name "") && (PosixPath.rfind_sep name <? 0))%bool
      then Some name else None
  | None => None
  end.

Fixpoint entries_of (d : string) (paths : list string) : list string :=
  match paths with
  | [] => []
  | p :: rest =>
      match entry_name d p with
      | Some n => n :: entries_of d rest
      | None => entries_of d rest
      end
  end.

Fixpoint lookup_file (p : string) (fs : list (string * Image)) : option Image :=
  match fs with
  | [] => None
  | (q, img) :: rest => if String.eqb p q then Some img else lookup_file p rest
  end.

Definition sim_isdir (p : string) (w : SimWorld) : bool :=
  existsb (String.eqb p) (sim_dirs w).

Definition sim_makedirs (p : string) (w : SimWorld) : result unit * SimWorld :=
  match lookup_file p (sim_files w) with
  | Some _ => (Raise (OSError p), w)
  | None =>
      (Ok tt,
       if sim_isdir p w then w
       else {| sim_cwd := sim_cwd w; sim_dirs := p :: sim_dirs w;
               sim_files := sim_files w; sim_clock := sim_clock w |})
  end.

Definition sim_listdir (p : string) (w : SimWorld)
  : result (list string) * SimWorld :=
  if sim_isdir p w
  then (Ok (entries_of p (map fst (sim_files w) ++ sim_dirs w)), w)
  else (Raise (OSError p), w).

Definition sim_open (p : string) (w : SimWorld) : result Image * SimWorld :=
  match lookup_file p (sim_files w) with
  | Some img => (Ok img, w)
  | None => (Raise (OSError p), w)
  end.

Definition sim_save (img : Image) (p : string) (w : SimWorld)
  : result unit * SimWorld :=
  (Ok tt,
   {| sim_cwd := sim_cwd w; sim_dirs := sim_dirs w;
      sim_files := (p, img) :: sim_files w; sim_clock := sim_clock w |}).

Definition nearest (img : Image) (w h x y : Z) : pixel :=
  getpixel img (x * width img / w) (y * height img / h).

(** There is memory for rasters of up to [2 ^ 26] pixels. *)
Definition sim_allocates (w h : Z) : bool := w * h <=? 2 ^ 26.

(** The inks left to the platform: an integer for the one-band modes that
    are not stored as bytes, palette index 0 for a palette image. *)
Definition sim_other_ink (m : string) (c : color) : result pixel :=
  if String.eqb m "P" then Ok [Int 0]
  else if String.eqb m "F" then
    match c with
    | [r] => let? f := PyNum.float_of_int r in Ok [Float f]
    | _ => Raise (TypeError "must be real number, not tuple")
    end
  else
    match c with
    | [r] => if fits_long_long r then Ok [Int r] else Raise OverflowError
    | _ => Raise (TypeError "color must be int or single-element tuple")
    end.

#[export] Instance SimPlatform : Platform SimWorld := {|
  getcwd := sim_cwd;
  isdir := sim_isdir;
  makedirs := sim_makedirs;
  listdir := sim_listdir;
  now := sim_clock;
  Image_open := sim_open;
  Image_save := sim_save;
  resample := nearest;
  new_allocates := fun _ w h => sim_allocates w h;
  resize_allocates := fun _ w h => sim_allocates w h;
  other_ink := sim_other_ink
|}.

(** *** Sample data *)

(** A raster of mode [m] whose pixel at (x, y) holds, as far as the mode
    has bands, the bytes of x and of y, 0 and 255. *)
Definition gradient (m : string) (w h : Z) : Image :=
  {| mode := m; width := w; height := h;
     getpixel := fun x y =>
       firstn (Z.to_nat (getbands m))
         [Int (x mod 256); Int (y mod 256); Int 0; Int 255] |}.

Definition noon : datetime :=
  {| year := 2024; month := 3; day := 7; hour := 12; minute := 5; second := 9 |}.

Definition sample_world : SimWorld :=
  {| sim_cwd := "/home/user";
     sim_dirs := ["/home/user"; "/home/user/input_images"];
     sim_files := [("/home/user/input_images/wide.png", gradient "RGB" 800 400);
                   ("/home/user/input_images/tall.jpg", gradient "L" 30 60)];
     sim_clock := noon |}.

Definition default_processor : ImageProcessor := __init__ None None.

(** ** The formulas of the specification *)

(** [round(n / d)] on the exact quotient, for a positive [d]: the nearest
    integer, a tie going to the even one. *)
Definition spec_round_div (n d : Z) : Z :=
  let q := n / d in
  let r := n mod d in
  if 2 * r <? d then q
  else if d <? 2 * r then q + 1
  else if Z.even q then q else q + 1.

(** The three cases of the specification's resize formula. *)
Definition spec_new_dimensions (w h size : Z) : Z * Z :=
  if w >? h then (size, spec_round_div (h * size) w)
  else if h >? w then (spec_round_div (w * size) h, size)
  else (size, size).

(** The pad colour of the specification: by the number of channels. *)
Definition spec_pad_color (m : string) : color :=
  if getbands m =? 3 then [114; 114; 114] else [114].

Fixpoint all_digits (s : string) : bool :=
  match s with
  | EmptyString => true
  | String c r => (is_digit c && all_digits r)%bool
  end.

(** A string of exactly [k] decimal digits. *)
Definition digits_of_length (k : nat) (s : string) : bool :=
  (Nat.eqb (String.length s) k && all_digits s)%bool.

(** [r] is the floor of the exact [n * a / b], or one below it when [b]
    divides [n * a]. *)
Definition floor_scaled (n a b r : Z) : Prop :=
  n * a / b - 1 <= r <= n * a / b /\
  ((n * a) mod b <> 0 -> r = n * a / b).

(** The claim of a three-case rounding formula, at one call. *)
Definition resize_follows_spec_formula {W : Type} `{Platform W}
  (self : ImageProcessor) (img : Image) (dimension : Z) : Prop :=
  exists r, resize_to_square self img dimension = Ok r /\
            Image_size r =
              spec_new_dimensions (width img) (height img)
                (dimension_or_target self dimension).

(** The claim of a pad colour chosen by the number of channels, at one
    call with the default [pad_color]. *)
Definition padding_follows_spec {W : Type} `{Platform W}
  (self : ImageProcessor) (img : Image) : Prop :=
  exists c, apply_padding self img default_pad_color = Ok c /\
            Image_size c = (target_size self, target_size self) /\
            mode c = mode img /\
            forall x y, 0 <= x < target_size self -> 0 <= y < target_size self ->
              getpixel c x y =
                if ((x <? width img) && (y <? height img))%bool
                then getpixel img x y
                else map Int (spec_pad_color (mode img)).

(** The claim that a square image is resized to
    (target_size, target_size), at one call with the default dimension. *)
Definition square_resize_follows_spec {W : Type} `{Platform W}
  (self : ImageProcessor) (img : Image) : Prop :=
  exists r, resize_to_square self img default_dimension = Ok r /\
            Image_size r = (target_size self, target_size self).

(** The number a string of decimal digits writes. *)
Definition digits_value (s : string) : Z :=
  (fix go (acc : Z) (s : string) : Z :=
     match s with
     | EmptyString => acc
     | String c r => go (10 * acc + (Z.of_nat (nat_of_ascii c) - 48)) r
     end) 0 s.

(** A source folder whose second entry is a 1000 x 1 strip. *)
Definition strip_world : SimWorld :=
  {| sim_cwd := "/home/user";
     sim_dirs := ["/home/user"; "/home/user/input_images"];
     sim_files := [("/home/user/input_images/wide.png", gradient "RGB" 800 400);
                   ("/home/user/input_images/strip.png", gradient "RGB" 1000 1);
                   ("/home/user/input_images/tall.jpg", gradient "L" 30 60)];
     sim_clock := noon |}.

(** A world without the input_images folder. *)
Definition bare_world : SimWorld :=
  {| sim_cwd := "/home/user";
     sim_dirs := ["/home/user"];
     sim_files := [];
     sim_clock := noon |}.

(** A processor on the sample source folder. *)
Definition folder_processor : ImageProcessor :=
  __init__ (Some "/home/user/input_images") None.

(** The output folder of the sample clock reading. *)
Definition noon_folder : string := "dataset/20240307120509".

(** [strip_world] once the output folder is made, and once its first entry
    is processed. *)
Definition strip_made : SimWorld := snd (makedirs noon_folder strip_world).

Definition strip_after_wide : SimWorld :=
  snd (process_single_image folder_processor
         "/home/user/input_images/wide.png" noon_folder strip_made).

(** [sample_world] once the output folder is made. *)
Definition sample_made : SimWorld := snd (makedirs noon_folder sample_world).

(** The two source files of [sample_world] are still there. *)
Definition sources_kept (v : SimWorld) : Prop :=
  lookup_file "/home/user/input_images/wide.png" (sim_files v) =
    Some (gradient "RGB" 800 400) /\
  lookup_file "/home/user/input_images/tall.jpg" (sim_files v) =
    Some (gradient "L" 30 60).

(** Side conditions on the sample data. *)
Ltac concrete :=
  unfold default_processor, __init__, TARGET_SIZE; simpl; lia.

(** * Properties *)

(** ** Paths *)

Module PosixPathFacts.
Import PosixPath.

Lemma rfind_sep_lower (p : string) : -1 <= rfind_sep p.
Proof.
  induction p as [|c r IH]; simpl; [lia|].
  destruct (0 <=? rfind_sep r) eqn:E; [apply Z.leb_le in E; lia|].
  destruct (Ascii.eqb c sep); lia.
Qed.

Lemma rfind_sep_app (a b : string) :
  rfind_sep (a ++ b) =
    if 0 <=? rfind_sep b then Z.of_nat (String.length a) + rfind_sep b
    else rfind_sep a.
Proof.
  induction a as [|c r IH].
  - simpl. destruct (0 <=? rfind_sep b) eqn:E; [lia|].
    apply Z.leb_gt in E. pose proof (rfind_sep_lower b). lia.
  - cbn [append rfind_sep String.length]. rewrite IH.
    destruct (0 <=? rfind_sep b) eqn:E.
    + apply Z.leb_le in E.
      replace (0 <=? Z.of_nat (String.length r) + rfind_sep b) with true
        by (symmetry; apply Z.leb_le; lia).
      lia.
    + reflexivity.
Qed.

Lemma slice_from_app (a b : string) :
  slice_from (String.length a) (a ++ b) = b.
Proof. induction a as [|c r IH]; simpl; [destruct b|]; auto. Qed.

Lemma endswith_sep_rfind (a : string) :
  endswith_sep a = true -> rfind_sep a = Z.of_nat (String.length a) - 1.
Proof.
  induction a as [|c r IH]; [discriminate|].
  destruct r as [|d r'].
  - simpl. intros ->. reflexivity.
  - intros E. change (endswith_sep (String d r') = true) in E.
    specialize (IH E).
    cbn [rfind_sep] in *. cbn [String.length] in *.
    remember (if 0 <=? rfind_sep r' then rfind_sep r' + 1
              else if Ascii.eqb d sep then 0 else -1) as i.
    replace (0 <=? i) with true by (symmetry; apply Z.leb_le; lia).
    lia.
Qed.

(** The base name of a path holds no separator. *)
Lemma basename_no_sep (p : string) : rfind_sep (basename p) = -1.
Proof.
  unfold basename.
  induction p as [|c r IH]; [reflexivity|].
  cbn [rfind_sep]. pose proof (rfind_sep_lower r) as L.
  destruct (0 <=? rfind_sep r) eqn:E.
  - apply Z.leb_le in E.
    replace (Z.to_nat (rfind_sep r + 1 + 1)) with (S (Z.to_nat (rfind_sep r + 1)))
      by lia.
    exact IH.
  - apply Z.leb_gt in E. assert (R : rfind_sep r = -1) by lia.
    destruct (Ascii.eqb c sep) eqn:C.
    + simpl. exact R.
    + simpl. rewrite R. simpl. rewrite C. reflexivity.
Qed.

Lemma no_sep_not_startswith (n : string) :
  rfind_sep n = -1 -> startswith_sep n = false.
Proof.
  destruct n as [|c r]; [reflexivity|]. simpl.
  pose proof (rfind_sep_lower r).
  destruct (0 <=? rfind_sep r) eqn:E; [apply Z.leb_le in E; lia|].
  destruct (Ascii.eqb c sep); [lia | reflexivity].
Qed.

Lemma basename_of_name (n : string) : rfind_sep n = -1 -> basename n = n.
Proof. unfold basename. intros ->. reflexivity. Qed.

(** Joining a directory and a plain name, then taking the base name, gives
    the name back. *)
Lemma basename_join (a n : string) :
  rfind_sep n = -1 -> basename (join a n) = n.
Proof.
  intros N. unfold join. rewrite (no_sep_not_startswith n N).
  destruct (String.eqb a "") eqn:A.
  - apply String.eqb_eq in A. subst a. simpl. apply basename_of_name, N.
  - destruct (endswith_sep a) eqn:E; simpl orb; cbv iota.
    + unfold basename. rewrite rfind_sep_app, N. change (0 <=? -1) with false. cbv iota.
      rewrite (endswith_sep_rfind a E).
      replace (Z.to_nat (Z.of_nat (String.length a) - 1 + 1))
        with (String.length a) by lia.
      apply slice_from_app.
    + unfold basename. rewrite rfind_sep_app.
      assert (R : rfind_sep (String sep n) = 0).
      { simpl. rewrite N. reflexivity. }
      rewrite R. change (0 <=? 0) with true. cbv iota.
      replace (Z.to_nat (Z.of_nat (String.length a) + 0 + 1))
        with (S (String.length a)) by lia.
      change (String sep n) with (String sep "" ++ n).
      replace (a ++ String sep "" ++ n) with ((a ++ String sep "") ++ n).
      * replace (S (String.length a)) with (String.length (a ++ String sep "")).
        -- apply slice_from_app.
        -- clear. induction a; simpl; auto.
      * clear. induction a; simpl; [reflexivity | f_equal; auto].
Qed.

End PosixPathFacts.

(** ** Timestamps *)

Lemma forall_range (P : Z -> bool) (lo : Z) (n : nat) :
  forallb (fun k => P (lo + Z.of_nat k)) (seq 0 n) = true ->
  forall z, lo <= z < lo + Z.of_nat n -> P z = true.
Proof.
  intros F z Hz. rewrite forallb_forall in F.
  specialize (F (Z.to_nat (z - lo))).
  replace (lo + Z.of_nat (Z.to_nat (z - lo))) with z in F by lia.
  apply F, in_seq. lia.
Qed.

Lemma digits_of_length_app (j k : nat) (s t : string) :
  digits_of_length j s = true -> digits_of_length k t = true ->
  digits_of_length (j + k) (s ++ t) = true.
Proof.
  unfold digits_of_length. intros Hs Ht.
  apply andb_true_iff in Hs as [Ls Ds]. apply andb_true_iff in Ht as [Lt' Dt].
  apply Nat.eqb_eq in Ls, Lt'. subst j k.
  apply andb_true_iff; split.
  - apply Nat.eqb_eq. clear. induction s; simpl; auto.
  - induction s as [|c r IH]; simpl in *; [exact Dt|].
    apply andb_true_iff in Ds as [C R]. rewrite C. simpl. auto.
Qed.

Lemma decimal2_two_digits (n : Z) :
  0 <= n < 100 -> digits_of_length 2 (decimal2 n) = true.
Proof.
  intros Hn.
  apply (forall_range (fun z => digits_of_length 2 (decimal2 z)) 0 (Z.to_nat 100));
    [vm_compute; reflexivity | lia].
Qed.

Lemma decimal_four_digits (n : Z) :
  1000 <= n <= 9999 -> digits_of_length 4 (decimal n) = true.
Proof.
  intros Hn.
  apply (forall_range (fun z => digits_of_length 4 (decimal z)) 1000 (Z.to_nat 9000));
    [vm_compute; reflexivity | lia].
Qed.

Lemma strftime_DATE_FORMAT (t : datetime) :
  strftime DATE_FORMAT t =
    decimal (year t) ++ decimal2 (month t) ++ decimal2 (day t) ++
    decimal2 (hour t) ++ decimal2 (minute t) ++ decimal2 (second t) ++ "".
Proof. reflexivity. Qed.

Lemma timestamp_fourteen_digits (t : datetime) :
  valid_datetime t -> 1000 <= year t ->
  digits_of_length 14 (strftime DATE_FORMAT t) = true.
Proof.
  intros (Y & Mo & D & Hh & Mi & S) Y'.
  rewrite strftime_DATE_FORMAT.
  apply (digits_of_length_app 4 10); [apply decimal_four_digits; lia|].
  apply (digits_of_length_app 2 8); [apply decimal2_two_digits; lia|].
  apply (digits_of_length_app 2 6); [apply decimal2_two_digits; lia|].
  apply (digits_of_length_app 2 4); [apply decimal2_two_digits; lia|].
  apply (digits_of_length_app 2 2); [apply decimal2_two_digits; lia|].
  apply (digits_of_length_app 2 0); [apply decimal2_two_digits; lia|].
  reflexivity.
Qed.

Lemma digits_not_startswith_sep (s : string) :
  all_digits s = true -> PosixPath.startswith_sep s = false.
Proof.
  destruct s as [|c r]; [reflexivity|]. simpl.
  intros E. apply andb_true_iff in E as [C _].
  destruct (Ascii.eqb c PosixPath.sep) eqn:Q; [|reflexivity].
  apply Ascii.eqb_eq in Q. subst c. discriminate.
Qed.

(** ** Double-precision arithmetic *)

(** The rounding of [SpecFloat] is followed through its shifts: in the
    normal range a mantissa of [d >= 53] digits loses its [d - 53] low
    digits and is then left as it is or incremented, so the result is
    within one unit in the last place.  That is all the bounds on
    [int(n * (a / b))] below need. *)

Module PyNumFacts.
Import PyNum.

Lemma fexp_eq (e : Z) : fexp prec emax e = Z.max (e - 53) (-1074).
Proof. reflexivity. Qed.

Lemma digits2_pos_size (p : positive) : digits2_pos p = Pos.size p.
Proof. induction p; simpl; congruence. Qed.

(** A number of [d] binary digits lies in [[2 ^ (d - 1), 2 ^ d)]. *)
Lemma digits2_pos_bounds (p : positive) :
  2 ^ (Zpos (digits2_pos p) - 1) <= Zpos p < 2 ^ Zpos (digits2_pos p).
Proof.
  rewrite digits2_pos_size.
  assert (L : Zpos (Pos.size p) = Z.succ (Z.log2 (Zpos p))).
  { destruct p; simpl; try reflexivity; rewrite Pos2Z.inj_succ; reflexivity. }
  rewrite L. replace (Z.succ (Z.log2 (Zpos p)) - 1) with (Z.log2 (Zpos p)) by lia.
  apply Z.log2_spec. lia.
Qed.

Lemma digits2_pos_unique (p : positive) (d : Z) :
  2 ^ (d - 1) <= Zpos p < 2 ^ d -> Zpos (digits2_pos p) = d.
Proof.
  intros [L U]. pose proof (digits2_pos_bounds p) as [L' U'].
  assert (D : 0 < d).
  { destruct (Z_lt_le_dec 0 d); [assumption|].
    assert (2 ^ d <= 2 ^ 0) by (apply Z.pow_le_mono_r; lia). simpl in *. lia. }
  destruct (Z_lt_le_dec (Zpos (digits2_pos p)) d) as [Q|Q].
  - assert (2 ^ Zpos (digits2_pos p) <= 2 ^ (d - 1)) by (apply Z.pow_le_mono_r; lia).
    lia.
  - destruct (Z_lt_le_dec d (Zpos (digits2_pos p))) as [Q'|Q']; [|lia].
    assert (2 ^ d <= 2 ^ (Zpos (digits2_pos p) - 1)) by (apply Z.pow_le_mono_r; lia).
    lia.
Qed.

(** Shifting right halves the mantissa of the record. *)
Lemma shr_1_m (mrs : shr_record) :
  0 <= shr_m mrs -> shr_m (shr_1 mrs) = shr_m mrs / 2.
Proof.
  destruct mrs as [m r s]. simpl. intros M.
  destruct m as [|p|p]; [reflexivity| |lia].
  destruct p as [p|p|]; simpl.
  - rewrite (Pos2Z.inj_xI p). apply (Z.div_unique _ 2 _ 1); lia.
  - rewrite (Pos2Z.inj_xO p). apply (Z.div_unique _ 2 _ 0); lia.
  - reflexivity.
Qed.

Lemma iter_pos_shr_1 (p : positive) (mrs : shr_record) :
  0 <= shr_m mrs ->
  shr_m (iter_pos shr_1 p mrs) = shr_m mrs / 2 ^ Zpos p.
Proof.
  revert mrs. induction p as [p IH|p IH|]; intros mrs M.
  - simpl iter_pos.
    assert (M1 : 0 <= shr_m (shr_1 mrs)).
    { rewrite shr_1_m by assumption. apply Z.div_pos; lia. }
    assert (M2 : 0 <= shr_m (iter_pos shr_1 p (shr_1 mrs))).
    { rewrite IH by assumption. apply Z.div_pos; [lia | apply Z.pow_pos_nonneg; lia]. }
    rewrite IH, IH, shr_1_m by assumption.
    rewrite !Z.div_div by (try apply Z.pow_pos_nonneg; lia).
    f_equal. rewrite (Pos2Z.inj_xI p).
    replace (2 * Zpos p + 1) with (1 + Zpos p + Zpos p) by lia.
    rewrite !Z.pow_add_r by lia. lia.
  - simpl iter_pos.
    assert (M2 : 0 <= shr_m (iter_pos shr_1 p mrs)).
    { rewrite IH by assumption. apply Z.div_pos; [lia | apply Z.pow_pos_nonneg; lia]. }
    rewrite IH, IH by assumption.
    rewrite !Z.div_div by (try apply Z.pow_pos_nonneg; lia).
    f_equal. rewrite (Pos2Z.inj_xO p).
    replace (2 * Zpos p) with (Zpos p + Zpos p) by lia.
    rewrite !Z.pow_add_r by lia. lia.
  - simpl iter_pos. rewrite shr_1_m by assumption. reflexivity.
Qed.

Lemma shr_record_of_loc_m (m : Z) (l : location) :
  shr_m (shr_record_of_loc m l) = m.
Proof. destruct l as [|[]]; reflexivity. Qed.

Lemma shr_spec (m : Z) (l : location) (e n : Z) :
  0 <= m -> 0 <= n ->
  shr_m (fst (shr (shr_record_of_loc m l) e n)) = m / 2 ^ n /\
  snd (shr (shr_record_of_loc m l) e n) = e + n.
Proof.
  intros M N. destruct n as [|p|p]; [| |lia].
  - simpl. rewrite shr_record_of_loc_m, Z.div_1_r. split; lia.
  - simpl. rewrite iter_pos_shr_1 by (rewrite shr_record_of_loc_m; assumption).
    rewrite shr_record_of_loc_m. split; reflexivity.
Qed.

Lemma round_nearest_even_cases (m : Z) (l : location) :
  round_nearest_even m l = m \/ round_nearest_even m l = m + 1.
Proof.
  destruct l as [|[]]; simpl; auto. destruct (Z.even m); auto.
Qed.

Lemma pow2_split (a b : Z) : 0 <= a -> 0 <= b -> 2 ^ (a + b) = 2 ^ a * 2 ^ b.
Proof. intros. apply Z.pow_add_r; assumption. Qed.

Lemma pow2_pos (a : Z) : 0 <= a -> 0 < 2 ^ a.
Proof. intros. apply Z.pow_pos_nonneg; lia. Qed.

(** In the normal range [shr_fexp] drops the digits beyond the 53rd. *)
Lemma shr_fexp_normal (m : positive) (e : Z) (l : location) (d : Z) :
  Zpos (digits2_pos m) = d ->
  53 <= d -> -1074 <= d + e - 53 ->
  shr_m (fst (shr_fexp prec emax (Zpos m) e l)) = Zpos m / 2 ^ (d - 53) /\
  snd (shr_fexp prec emax (Zpos m) e l) = d + e - 53.
Proof.
  intros Hd D E. unfold shr_fexp. rewrite fexp_eq.
  change (Zdigits2 (Zpos m)) with (Zpos (digits2_pos m)). rewrite Hd.
  replace (Z.max (d + e - 53) (-1074) - e) with (d - 53) by lia.
  destruct (shr_spec (Zpos m) l e (d - 53)) as [A B]; [lia | lia |].
  split; [exact A | rewrite B; lia].
Qed.

(** Rounding a mantissa of [d >= 53] digits in the normal range: a normal
    double whose mantissa is the truncated one or its successor (with the
    exponent one up when the successor is [2 ^ 53]). *)
Lemma round_aux_normal (mx : positive) (ex : Z) (lx : location) (d : Z) :
  Zpos (digits2_pos mx) = d ->
  53 <= d -> -1074 <= d + ex - 53 -> d + ex - 53 + 1 <= 971 ->
  exists m3 e3,
    binary_round_aux prec emax false (Zpos mx) ex lx = S754_finite false m3 e3 /\
    2 ^ 52 <= Zpos m3 < 2 ^ 53 /\
    ((e3 = d + ex - 53 /\
      (Zpos m3 = Zpos mx / 2 ^ (d - 53) \/ Zpos m3 = Zpos mx / 2 ^ (d - 53) + 1)) \/
     (e3 = d + ex - 53 + 1 /\ 2 * Zpos m3 = Zpos mx / 2 ^ (d - 53) + 1)).
Proof.
  intros Hd D E U. unfold binary_round_aux.
  assert (P52 : 2 ^ 52 = 4503599627370496) by reflexivity.
  assert (P53 : 2 ^ 53 = 9007199254740992) by reflexivity.
  destruct (shr_fexp_normal mx ex lx d Hd D E) as [A B].
  destruct (shr_fexp prec emax (Zpos mx) ex lx) as [mrs' e'].
  cbn [fst snd] in A, B. subst e'.
  remember (Zpos mx / 2 ^ (d - 53)) as m1 eqn:Hm1.
  assert (M1 : 2 ^ 52 <= m1 < 2 ^ 53).
  { pose proof (digits2_pos_bounds mx) as [L R]. rewrite Hd in L, R.
    pose proof (pow2_pos (d - 53) ltac:(lia)) as P.
    replace (d - 1) with ((d - 53) + 52) in L by lia.
    replace (2 ^ d) with (2 ^ ((d - 53) + 53)) in R by (f_equal; lia).
    rewrite pow2_split in L, R by lia.
    subst m1. split.
    - apply Z.div_le_lower_bound; [exact P | exact L].
    - apply Z.div_lt_upper_bound; [exact P | exact R]. }
  rewrite A.
  set (m2 := round_nearest_even m1 (loc_of_shr_record mrs')).
  assert (M2 : m2 = m1 \/ m2 = m1 + 1) by apply round_nearest_even_cases.
  clearbody m2. clear A mrs' Hm1.
  destruct (Z_lt_le_dec m2 (2 ^ 53)) as [Q|Q].
  - destruct m2 as [|p2|p2];
      [exfalso; clear -M1 M2 P52; lia | | exfalso; clear -M1 M2 P52; lia].
    assert (D2 : Zpos (digits2_pos p2) = 53)
      by (apply digits2_pos_unique; change (53 - 1) with 52; lia).
    destruct (shr_fexp_normal p2 (d + ex - 53) loc_Exact 53 D2) as [A B];
      [lia | lia |].
    destruct (shr_fexp prec emax (Zpos p2) (d + ex - 53) loc_Exact) as [mrs'' e''].
    cbn [fst snd] in A, B. change (2 ^ (53 - 53)) with 1 in A.
    rewrite Z.div_1_r in A. rewrite A.
    replace (e'' <=? emax - prec) with true
      by (symmetry; apply Z.leb_le; unfold emax, prec; lia).
    exists p2, e''. split; [reflexivity|]. split; [lia|].
    left. split; [lia | exact M2].
  - assert (M2' : m2 = 2 ^ 53) by lia. subst m2.
    change (2 ^ 53) with (Zpos (2 ^ 53)).
    assert (D2 : Zpos (digits2_pos (2 ^ 53)) = 54) by reflexivity.
    destruct (shr_fexp_normal (2 ^ 53) (d + ex - 53) loc_Exact 54 D2) as [A B];
      [lia | lia |].
    destruct (shr_fexp prec emax (Zpos (2 ^ 53)) (d + ex - 53) loc_Exact)
      as [mrs'' e''].
    cbn [fst snd] in A, B. rewrite A.
    change (Zpos (2 ^ 53) / 2 ^ (54 - 53)) with (Zpos (2 ^ 52)).
    replace (e'' <=? emax - prec) with true
      by (symmetry; apply Z.leb_le; unfold emax, prec; lia).
    exists (2 ^ 52)%positive, e''. split; [reflexivity|].
    split; [split; [apply Z.le_refl | reflexivity]|].
    right. split; [lia|].
    change (2 * Zpos (2 ^ 52)) with (2 ^ 53). lia.
Qed.

Lemma iter_xO_pow2 (p d : positive) : Zpos (Pos.iter xO p d) = Zpos p * 2 ^ Zpos d.
Proof.
  rewrite <- Z.shiftl_mul_pow2 by lia. unfold Z.shiftl.
  apply (Pos.iter_swap_gen _ _ Zpos xO (Z.mul 2)). reflexivity.
Qed.

Lemma digits_upper (p : positive) (b : Z) :
  0 <= b -> Zpos p < 2 ^ b -> 1 <= Zpos (digits2_pos p) <= b.
Proof.
  intros B U. split; [lia|].
  destruct (Z_lt_le_dec b (Zpos (digits2_pos p))) as [Q|Q]; [|assumption].
  pose proof (digits2_pos_bounds p) as [L _].
  assert (2 ^ b <= 2 ^ (Zpos (digits2_pos p) - 1)) by (apply Z.pow_le_mono_r; lia).
  lia.
Qed.

(** A mantissa of exactly 53 digits with nothing behind it is kept. *)
Lemma round_aux_exact (m : positive) (e : Z) :
  Zpos (digits2_pos m) = 53 -> -1074 <= e <= 971 ->
  binary_round_aux prec emax false (Zpos m) e loc_Exact = S754_finite false m e.
Proof.
  intros D E. unfold binary_round_aux, shr_fexp. rewrite fexp_eq.
  change (Zdigits2 (Zpos m)) with (Zpos (digits2_pos m)). rewrite D.
  replace (Z.max (53 + e - 53) (-1074) - e) with 0 by lia.
  cbn [shr shr_record_of_loc shr_m loc_of_shr_record round_nearest_even].
  rewrite fexp_eq.
  change (Zdigits2 (Zpos m)) with (Zpos (digits2_pos m)). rewrite D.
  replace (Z.max (53 + e - 53) (-1074) - e) with 0 by lia.
  cbn [shr shr_record_of_loc shr_m].
  replace (e <=? emax - prec) with true
    by (symmetry; apply Z.leb_le; unfold emax, prec; lia).
  reflexivity.
Qed.

(** The quotient the division hands to the rounding. *)
Lemma div_core_eq (ps pw : positive) (d1 d2 : Z) :
  Zpos (digits2_pos ps) = d1 -> Zpos (digits2_pos pw) = d2 ->
  1 <= d1 <= 52 -> 1 <= d2 <= 53 ->
  exists l,
    SFdiv_core_binary prec emax (Zpos ps) 0 (Zpos pw) 0 =
      (Zpos ps * 2 ^ (53 + d2 - d1) / Zpos pw, d1 - d2 - 53, l).
Proof.
  intros H1 H2 B1 B2. unfold SFdiv_core_binary.
  change (Zdigits2 (Zpos ps)) with (Zpos (digits2_pos ps)).
  change (Zdigits2 (Zpos pw)) with (Zpos (digits2_pos pw)).
  rewrite H1, H2, fexp_eq.
  replace (Z.min (Z.max (d1 + 0 - (d2 + 0) - 53) (-1074)) (0 - 0))
    with (d1 - d2 - 53) by lia.
  replace (0 - 0 - (d1 - d2 - 53)) with (53 + d2 - d1) by lia.
  destruct (53 + d2 - d1) as [|k|k] eqn:K; [lia | | lia].
  rewrite Z.shiftl_mul_pow2 by lia.
  unfold Z.div.
  destruct (Z.div_eucl (Zpos ps * 2 ^ Zpos k) (Zpos pw)) as [q r].
  eexists. reflexivity.
Qed.

(** [a / b] on two positive integers below [2 ^ 50]: a normal double
    [m / 2 ^ c], within one unit in the last place of the quotient. *)
Lemma truediv_bounds (a b : Z) :
  0 < a < 2 ^ 50 -> 0 < b < 2 ^ 50 ->
  exists m c,
    truediv a b = Ok (S754_finite false m (- c)) /\
    2 <= c <= 110 /\
    2 ^ 52 <= Zpos m < 2 ^ 53 /\
    b * (Zpos m - 1) <= a * 2 ^ c <= b * (Zpos m + 1).
Proof.
  intros [A0 A1] [B0 B1].
  destruct a as [|pa|pa]; [lia | | lia].
  destruct b as [|pb|pb]; [lia | | lia].
  assert (P52 : 2 ^ 52 = 4503599627370496) by reflexivity.
  assert (P53 : 2 ^ 53 = 9007199254740992) by reflexivity.
  pose proof (digits_upper pa 50 ltac:(lia) A1) as D1.
  pose proof (digits_upper pb 50 ltac:(lia) B1) as D2.
  pose proof (digits2_pos_bounds pa) as [L1 U1].
  pose proof (digits2_pos_bounds pb) as [L2 U2].
  remember (Zpos (digits2_pos pa)) as d1 eqn:E1.
  remember (Zpos (digits2_pos pb)) as d2 eqn:E2.
  symmetry in E1, E2.
  destruct (div_core_eq pa pb d1 d2 E1 E2 ltac:(lia) ltac:(lia)) as [l C].
  unfold truediv, exact. change (Zpos pb =? 0) with false. cbv iota.
  unfold SFdiv. rewrite C. change (xorb false false) with false.
  set (k := 53 + d2 - d1) in *.
  remember (Zpos pa * 2 ^ k / Zpos pb) as q eqn:Hq.
  pose proof (pow2_pos k ltac:(lia)) as Pk.
  assert (Q : 2 ^ 52 <= q < 2 ^ 54).
  { subst q. split.
    - apply Z.div_le_lower_bound; [lia|].
      replace (2 ^ 52) with (2 ^ (52 - 0)) by reflexivity.
      assert (S1 : 2 ^ (d2 + 52) <= Zpos pa * 2 ^ k).
      { replace (d2 + 52) with ((d1 - 1) + k) by lia.
        rewrite pow2_split by lia. apply Z.mul_le_mono_nonneg_r; lia. }
      assert (S2 : Zpos pb * 2 ^ 52 <= 2 ^ (d2 + 52)).
      { rewrite pow2_split by lia. apply Z.mul_le_mono_nonneg_r; lia. }
      change (52 - 0) with 52. lia.
    - apply Z.div_lt_upper_bound; [lia|].
      assert (S1 : Zpos pa * 2 ^ k < 2 ^ (d2 + 53)).
      { replace (d2 + 53) with (d1 + k) by lia.
        rewrite pow2_split by lia. apply Z.mul_lt_mono_pos_r; lia. }
      assert (S2 : 2 ^ (d2 + 53) <= Zpos pb * 2 ^ 54).
      { replace (d2 + 53) with ((d2 - 1) + 54) by lia.
        rewrite pow2_split by lia. apply Z.mul_le_mono_nonneg_r; lia. }
      lia. }
  destruct q as [|pq|pq]; [lia | | lia].
  remember (Zpos (digits2_pos pq)) as d eqn:Ed. symmetry in Ed.
  assert (Dq : d = 53 \/ d = 54).
  { destruct (Z_lt_le_dec (Zpos pq) (2 ^ 53)) as [G|G].
    - left. rewrite <- Ed. apply digits2_pos_unique. change (53 - 1) with 52. lia.
    - right. rewrite <- Ed. apply digits2_pos_unique. change (54 - 1) with 53. lia. }
  destruct (round_aux_normal pq (d1 - d2 - 53) l d Ed)
    as (m3 & e3 & R & M3 & V); [lia | lia | lia |].
  rewrite R.
  set (n := d - 53) in *.
  set (c1 := k - n).
  assert (Hm1 : Zpos pq / 2 ^ n = Zpos pa * 2 ^ c1 / Zpos pb).
  { rewrite Hq, Z.div_div by (try apply pow2_pos; lia).
    replace k with (c1 + n) by (unfold c1; lia).
    rewrite pow2_split by (unfold c1; lia).
    rewrite Z.mul_assoc. apply Z.div_mul_cancel_r; [lia|].
    pose proof (pow2_pos n ltac:(lia)). lia. }
  pose proof (Z.mul_div_le (Zpos pa * 2 ^ c1) (Zpos pb) ltac:(lia)) as Lo.
  pose proof (Z.mul_succ_div_gt (Zpos pa * 2 ^ c1) (Zpos pb) ltac:(lia)) as Hi.
  rewrite <- Hm1 in Lo, Hi.
  remember (Zpos pq / 2 ^ n) as m1 eqn:Em1. clear Em1 Hm1.
  remember (2 ^ c1) as T1 eqn:ET1.
  destruct V as [[Ee [Vm|Vm]]|[Ee Vm]].
  - exists m3, c1. replace (- c1) with e3 by (unfold c1, n in *; lia).
    split; [reflexivity|]. split; [unfold c1, n in *; lia|].
    split; [exact M3|]. rewrite <- ET1, Vm. lia.
  - exists m3, c1. replace (- c1) with e3 by (unfold c1, n in *; lia).
    split; [reflexivity|]. split; [unfold c1, n in *; lia|].
    split; [exact M3|]. rewrite <- ET1, Vm. lia.
  - exists m3, (c1 - 1). replace (- (c1 - 1)) with e3 by (unfold c1, n in *; lia).
    split; [reflexivity|]. split; [unfold c1, n in *; lia|].
    split; [exact M3|].
    assert (ET : T1 = 2 * 2 ^ (c1 - 1)).
    { rewrite ET1. replace c1 with (1 + (c1 - 1)) at 1 by lia.
      rewrite pow2_split by (unfold c1, n in *; lia). reflexivity. }
    remember (2 ^ (c1 - 1)) as T eqn:ETT. lia.
Qed.

(** [float(n)] is exact for a positive integer below [2 ^ 50]. *)
Lemma float_of_int_exact (n : Z) :
  0 < n < 2 ^ 50 ->
  exists m d,
    float_of_int n = Ok (S754_finite false m (d - 53)) /\
    1 <= d <= 50 /\
    2 ^ 52 <= Zpos m < 2 ^ 53 /\
    Zpos m = n * 2 ^ (53 - d).
Proof.
  intros [N0 N1]. destruct n as [|p|p]; [lia | | lia].
  pose proof (digits_upper p 50 ltac:(lia) N1) as D.
  pose proof (digits2_pos_bounds p) as [L U].
  remember (Zpos (digits2_pos p)) as d eqn:Ed.
  unfold float_of_int, binary_normalize, binary_round.
  rewrite fexp_eq, <- Ed.
  replace (Z.max (d + 0 - 53) (-1074)) with (d - 53) by lia.
  unfold shl_align.
  destruct (d - 53 - 0) as [|k|k] eqn:K; [lia | lia |].
  assert (V : Zpos (Pos.iter xO p k) = Zpos p * 2 ^ (53 - d)).
  { rewrite iter_xO_pow2. f_equal. f_equal. lia. }
  assert (B : 2 ^ 52 <= Zpos (Pos.iter xO p k) < 2 ^ 53).
  { rewrite V. split.
    - replace 52 with ((d - 1) + (53 - d)) by lia.
      rewrite pow2_split by lia.
      apply Z.mul_le_mono_nonneg_r; [apply Z.lt_le_incl, pow2_pos; lia | exact L].
    - replace (2 ^ 53) with (2 ^ (d + (53 - d))) by (f_equal; lia).
      rewrite pow2_split by lia.
      apply Z.mul_lt_mono_pos_r; [apply pow2_pos; lia | exact U]. }
  rewrite round_aux_exact;
    [| apply digits2_pos_unique; change (53 - 1) with 52; exact B | lia].
  exists (Pos.iter xO p k), d.
  split; [reflexivity|]. split; [lia|]. split; [exact B | exact V].
Qed.

(** [n * f] for a positive integer and a positive normal double
    [m / 2 ^ c] whose product stays below [2 ^ 51]: again a normal double
    [m' / 2 ^ c'], within one unit in the last place of the product. *)
Lemma mul_int_float_bounds (n : Z) (m : positive) (c : Z) :
  0 < n < 2 ^ 50 -> 2 ^ 52 <= Zpos m < 2 ^ 53 -> 0 <= c <= 110 ->
  n * Zpos m < 2 ^ 51 * 2 ^ c ->
  exists m' c',
    mul_int_float n (S754_finite false m (- c)) =
      Ok (S754_finite false m' (- c')) /\
    0 <= c' /\
    2 ^ 52 <= Zpos m' < 2 ^ 53 /\
    (Zpos m' - 1) * 2 ^ c <= n * Zpos m * 2 ^ c' <= (Zpos m' + 1) * 2 ^ c.
Proof.
  intros N M C Y.
  destruct (float_of_int_exact n N) as (mh & dh & F & Dh & Mh & Vh).
  unfold mul_int_float. rewrite F. cbn [rbind]. unfold SFmul.
  change (xorb false false) with false.
  assert (P104 : 2 ^ 104 = 2 ^ 52 * 2 ^ 52) by reflexivity.
  assert (P106 : 2 ^ 106 = 2 ^ 53 * 2 ^ 53) by reflexivity.
  assert (P105 : 2 ^ 105 = 2 * 2 ^ 104) by reflexivity.
  assert (P52 : 2 ^ 52 = 4503599627370496) by reflexivity.
  assert (P53 : 2 ^ 53 = 9007199254740992) by reflexivity.
  assert (A : 2 ^ 104 <= Zpos (mh * m) < 2 ^ 106).
  { rewrite Pos2Z.inj_mul, P104, P106. split.
    - apply Z.mul_le_mono_nonneg; lia.
    - apply Z.mul_lt_mono_nonneg; lia. }
  remember (Zpos (digits2_pos (mh * m))) as d eqn:Ed. symmetry in Ed.
  assert (Dd : d = 105 \/ d = 106).
  { destruct (Z_lt_le_dec (Zpos (mh * m)) (2 ^ 105)) as [G|G].
    - left. rewrite <- Ed. apply digits2_pos_unique.
      change (105 - 1) with 104. lia.
    - right. rewrite <- Ed. apply digits2_pos_unique.
      change (106 - 1) with 105. lia. }
  destruct (round_aux_normal (mh * m) (dh - 53 + - c) loc_Exact d Ed)
    as (m3 & e3 & R & M3 & V); [lia | lia | lia |].
  rewrite R.
  set (n' := d - 53) in *.
  set (c1 := c + 53 - dh - n').
  (* the product is below 2^(104 + c - dh), so d <= 104 + c - dh *)
  assert (Dc : d <= 104 + c - dh).
  { destruct (Z_lt_le_dec (104 + c - dh) d) as [G|G]; [exfalso|exact G].
    pose proof (digits2_pos_bounds (mh * m)) as [L _]. rewrite Ed in L.
    assert (S1 : 2 ^ (104 + c - dh) <= 2 ^ (d - 1))
      by (apply Z.pow_le_mono_r; lia).
    assert (S2 : Zpos (mh * m) < 2 ^ (104 + c - dh)).
    { rewrite Pos2Z.inj_mul, Vh.
      replace (104 + c - dh) with ((51 + c) + (53 - dh)) by lia.
      rewrite (pow2_split (51 + c)) by lia. rewrite (pow2_split 51) by lia.
      pose proof (pow2_pos (53 - dh) ltac:(lia)) as P.
      replace (n * 2 ^ (53 - dh) * Zpos m) with (n * Zpos m * 2 ^ (53 - dh))
        by ring.
      apply Z.mul_lt_mono_pos_r; [exact P | exact Y]. }
    lia. }
  assert (C1 : 2 <= c1) by (unfold c1, n'; lia).
  pose proof (pow2_pos n' ltac:(unfold n'; lia)) as Pn.
  pose proof (pow2_pos c ltac:(lia)) as Pc.
  pose proof (Z.mul_div_le (Zpos (mh * m)) (2 ^ n') Pn) as Lo.
  pose proof (Z.mul_succ_div_gt (Zpos (mh * m)) (2 ^ n') Pn) as Hi.
  remember (Zpos (mh * m) / 2 ^ n') as m1 eqn:Em1. clear Em1.
  assert (Prod : Zpos (mh * m) * 2 ^ c = n * Zpos m * 2 ^ c1 * 2 ^ n').
  { rewrite Pos2Z.inj_mul, Vh.
    replace (n * 2 ^ (53 - dh) * Zpos m * 2 ^ c)
      with (n * Zpos m * (2 ^ (53 - dh) * 2 ^ c)) by ring.
    rewrite <- pow2_split by lia.
    replace (53 - dh + c) with (c1 + n') by (unfold c1; lia).
    rewrite pow2_split by (unfold n' in *; lia). ring. }
  assert (Lo' : m1 * 2 ^ c <= n * Zpos m * 2 ^ c1).
  { apply (Z.mul_le_mono_pos_r _ _ (2 ^ n') Pn).
    rewrite <- Prod.
    replace (m1 * 2 ^ c * 2 ^ n') with (2 ^ n' * m1 * 2 ^ c) by ring.
    apply Z.mul_le_mono_nonneg_r; lia. }
  assert (Hi' : n * Zpos m * 2 ^ c1 < (m1 + 1) * 2 ^ c).
  { apply (Z.mul_lt_mono_pos_r (2 ^ n') _ _ Pn).
    rewrite <- Prod.
    replace ((m1 + 1) * 2 ^ c * 2 ^ n') with (2 ^ n' * Z.succ m1 * 2 ^ c)
      by (unfold Z.succ; ring).
    apply Z.mul_lt_mono_pos_r; lia. }
  clear Lo Hi Prod.
  remember (2 ^ c) as T eqn:ET. remember (n * Zpos m) as y eqn:Ey.
  destruct V as [[Ee [Vm|Vm]]|[Ee Vm]].
  - exists m3, c1. replace (- c1) with e3 by (unfold c1, n' in *; lia).
    split; [reflexivity|]. split; [lia|]. split; [exact M3|].
    rewrite Vm. remember (2 ^ c1) as T1. nia.
  - exists m3, c1. replace (- c1) with e3 by (unfold c1, n' in *; lia).
    split; [reflexivity|]. split; [lia|]. split; [exact M3|].
    rewrite Vm. remember (2 ^ c1) as T1. nia.
  - exists m3, (c1 - 1). replace (- (c1 - 1)) with e3 by (unfold c1, n' in *; lia).
    split; [reflexivity|]. split; [lia|]. split; [exact M3|].
    assert (ET1 : 2 ^ c1 = 2 * 2 ^ (c1 - 1)).
    { replace c1 with (1 + (c1 - 1)) at 1 by lia.
      rewrite pow2_split by lia. reflexivity. }
    rewrite ET1 in Lo', Hi'. remember (2 ^ (c1 - 1)) as T1. nia.
Qed.

(** [int(f)] on a positive double [m / 2 ^ c] is the floor. *)
Lemma int_of_float_floor (m : positive) (c : Z) :
  0 <= c -> int_of_float (S754_finite false m (- c)) = Ok (Zpos m / 2 ^ c).
Proof.
  intros C. unfold int_of_float, cond_Zopp.
  change (Z.shiftl (Zpos m) (- c)) with (Z.shiftr (Zpos m) c).
  rewrite Z.shiftr_div_pow2 by exact C. reflexivity.
Qed.

(** The integer arithmetic behind [scale]: a quotient [m / T] within one
    unit in the last place of [a / b], then a product [m' / T'] within one
    unit in the last place of [n * (m / T)], put [floor (m' / T')] at the
    floor of [n * a / b], or one below it when the quotient is exact. *)
Lemma scale_arith (n a b m T m' T' : Z) :
  0 < n < b -> 0 < a -> b * a < 2 ^ 50 -> 1 <= T -> 1 <= T' ->
  2 ^ 52 <= m -> 2 ^ 52 <= m' ->
  b * (m - 1) <= a * T <= b * (m + 1) ->
  (m' - 1) * T <= n * m * T' <= (m' + 1) * T ->
  n * a / b - 1 <= m' / T' <= n * a / b /\
  ((n * a) mod b <> 0 -> m' / T' = n * a / b).
Proof.
  intros N A BA HT HT' M M' [D1 D2] [M1 M2].
  assert (P50 : 2 ^ 50 = 1125899906842624) by reflexivity.
  assert (P52 : 2 ^ 52 = 4503599627370496) by reflexivity.
  rewrite P50 in BA. rewrite P52 in M, M'.
  remember (n * a) as P eqn:EP.
  assert (HP : 0 < P < 1125899906842624) by nia.
  pose proof (Z.div_mod P b ltac:(lia)) as DM.
  pose proof (Z.mod_pos_bound P b ltac:(lia)) as RB.
  remember (P / b) as K eqn:EK. remember (P mod b) as R eqn:ER.
  clear EK ER.
  (* T is large against n * b *)
  assert (Ta : 2 * (n * b) <= T).
  { destruct (Z_lt_le_dec T (2 * (n * b))) as [G|G]; [exfalso|exact G].
    assert (S1 : a * T <= a * (2 * (n * b) - 1))
      by (apply Z.mul_le_mono_nonneg_l; lia).
    assert (S2 : a * (2 * (n * b) - 1) = 2 * (P * b) - a) by (rewrite EP; ring).
    assert (S3 : P * b <= 1125899906842623 * b)
      by (apply Z.mul_le_mono_nonneg_r; lia).
    assert (S4 : b * 4503599627370495 <= b * (m - 1))
      by (apply Z.mul_le_mono_nonneg_l; lia).
    lia. }
  (* b * m against a * T *)
  assert (BM1 : b * m <= a * T + b) by lia.
  assert (BM2 : a * T - b <= b * m) by lia.
  (* T' is large against b *)
  assert (Tb : 2 * b < T').
  { destruct (Z_lt_le_dec (2 * b) T') as [G|G]; [exact G|exfalso].
    assert (S1 : 4503599627370495 * T <= (m' - 1) * T)
      by (apply Z.mul_le_mono_nonneg_r; lia).
    assert (S2 : n * m * T' <= n * m * (2 * b))
      by (apply Z.mul_le_mono_nonneg_l; nia).
    assert (S3 : n * m * (2 * b) = 2 * (n * (b * m))) by ring.
    assert (S4 : n * (b * m) <= n * (a * T + b))
      by (apply Z.mul_le_mono_nonneg_l; lia).
    assert (S5 : n * (a * T + b) = P * T + n * b) by (rewrite EP; ring).
    assert (S6 : P * T <= 1125899906842623 * T)
      by (apply Z.mul_le_mono_nonneg_r; lia).
    lia. }
  (* the slack *)
  assert (Sl : n * b * T' + b * T < T * T').
  { assert (S1 : 2 * (n * b) * T' <= T * T')
      by (apply Z.mul_le_mono_nonneg_r; lia).
    assert (S2 : T * (2 * b + 1) <= T * T')
      by (apply Z.mul_le_mono_nonneg_l; lia).
    lia. }
  (* b * m' * T against P * T * T' *)
  assert (Up : b * (m' * T) <= P * (T * T') + n * b * T' + b * T).
  { assert (S1 : b * (m' * T) <= b * (n * m * T' + T))
      by (apply Z.mul_le_mono_nonneg_l; lia).
    assert (S2 : (n * T') * (b * m) <= (n * T') * (a * T + b))
      by (apply Z.mul_le_mono_nonneg_l; nia).
    assert (S3 : b * (n * m * T' + T) = (n * T') * (b * m) + b * T) by ring.
    assert (S4 : (n * T') * (a * T + b) = P * (T * T') + n * b * T')
      by (rewrite EP; ring).
    lia. }
  assert (Dn : P * (T * T') - n * b * T' - b * T <= b * (m' * T)).
  { assert (S1 : b * (n * m * T' - T) <= b * (m' * T))
      by (apply Z.mul_le_mono_nonneg_l; lia).
    assert (S2 : (n * T') * (a * T - b) <= (n * T') * (b * m))
      by (apply Z.mul_le_mono_nonneg_l; nia).
    assert (S3 : b * (n * m * T' - T) = (n * T') * (b * m) - b * T) by ring.
    assert (S4 : (n * T') * (a * T - b) = P * (T * T') - n * b * T')
      by (rewrite EP; ring).
    lia. }
  assert (PU : P * (T * T') = b * (K * (T * T')) + R * (T * T'))
    by (rewrite DM at 1; ring).
  assert (TT : 0 < T * T') by nia.
  assert (RU : R * (T * T') <= (b - 1) * (T * T'))
    by (apply Z.mul_le_mono_nonneg_r; lia).
  assert (bT : 0 < b * T) by nia.
  (* m' < (K + 1) * T' *)
  assert (Hi : m' < T' * (K + 1)).
  { apply (Z.mul_lt_mono_pos_l (b * T) _ _ bT).
    replace (b * T * m') with (b * (m' * T)) by ring.
    replace (b * T * (T' * (K + 1)))
      with (b * (K * (T * T')) + b * (T * T')) by ring.
    lia. }
  assert (Q1 : m' / T' <= K).
  { assert (m' / T' < K + 1) by (apply Z.div_lt_upper_bound; lia). lia. }
  assert (Q2 : R <> 0 -> K <= m' / T').
  { intros R0. apply Z.div_le_lower_bound; [lia|].
    assert (RL : 1 * (T * T') <= R * (T * T'))
      by (apply Z.mul_le_mono_nonneg_r; lia).
    apply (Z.mul_le_mono_pos_l _ _ (b * T) bT).
    replace (b * T * (T' * K)) with (b * (K * (T * T'))) by ring.
    replace (b * T * m') with (b * (m' * T)) by ring.
    lia. }
  assert (Q3 : K - 1 <= m' / T').
  { apply Z.div_le_lower_bound; [lia|].
    assert (RL : 0 <= R * (T * T')) by (apply Z.mul_nonneg_nonneg; lia).
    assert (BL : 1 * (T * T') <= b * (T * T'))
      by (apply Z.mul_le_mono_nonneg_r; lia).
    apply (Z.mul_le_mono_pos_l _ _ (b * T) bT).
    replace (b * T * (T' * (K - 1)))
      with (b * (K * (T * T')) - b * (T * T')) by ring.
    replace (b * T * m') with (b * (m' * T)) by ring.
    lia. }
  split; [split; assumption|].
  intros R0. specialize (Q2 R0). lia.
Qed.

(** [int(n * (a / b))] for [0 < n < b], [0 < a] and [b * a < 2 ^ 50]: the
    floor of the exact [n * a / b] when [b] does not divide [n * a], and
    that quotient or one below it when it does. *)
Lemma scale_bounds (n a b : Z) :
  0 < n < b -> 0 < a -> b * a < 2 ^ 50 ->
  exists r, scale n a b = Ok r /\ floor_scaled n a b r.
Proof.
  intros N A BA.
  assert (P50 : 2 ^ 50 = 1125899906842624) by reflexivity.
  assert (P51 : 2 ^ 51 = 2251799813685248) by reflexivity.
  assert (A50 : a < 2 ^ 50) by nia.
  assert (B50 : b < 2 ^ 50) by nia.
  destruct (truediv_bounds a b ltac:(lia) ltac:(lia)) as (m & c & Q & C & M & D).
  pose proof (pow2_pos c ltac:(lia)) as PT.
  assert (Y : n * Zpos m < 2 ^ 51 * 2 ^ c).
  { remember (2 ^ c) as T eqn:ET. rewrite P51. rewrite P50 in *.
    apply (Z.mul_lt_mono_pos_l b); [lia|].
    assert (S1 : n * (b * Zpos m) <= n * (a * T + b))
      by (apply Z.mul_le_mono_nonneg_l; lia).
    assert (S2 : (n * a) * T <= 1125899906842623 * T)
      by (apply Z.mul_le_mono_nonneg_r; nia).
    assert (S3 : n * b <= 1125899906842624 * b)
      by (apply Z.mul_le_mono_nonneg_r; lia).
    assert (S4 : 1125899906842624 * b * 1 <= 1125899906842624 * b * T)
      by (apply Z.mul_le_mono_nonneg_l; lia).
    nia. }
  destruct (mul_int_float_bounds n m c ltac:(lia) M ltac:(lia) Y)
    as (m' & c' & F & C' & M' & V).
  unfold scale. rewrite Q. cbn [rbind]. rewrite F. cbn [rbind].
  rewrite int_of_float_floor by exact C'.
  exists (Zpos m' / 2 ^ c'). split; [reflexivity|].
  pose proof (pow2_pos c' C') as PT'.
  apply (scale_arith n a b (Zpos m) (2 ^ c) (Zpos m') (2 ^ c'));
    try lia; assumption.
Qed.

End PyNumFacts.

(** The quotient 49 * 640 / 31360 is exactly 1, the doubles give
    0.9999999999999999 and the truncation 0. *)
Example scale_exact_quotient_one_below :
  PyNum.scale 49 640 31360 = Ok 0 /\ 49 * 640 / 31360 = 1.
Proof. split; reflexivity. Qed.

(** ** The methods *)

Section MethodFacts.

Context {W : Type} `{Platform W}.

Lemma new_dimensions_square (w s : Z) : new_dimensions w w s = Ok (s, s).
Proof.
  unfold new_dimensions. rewrite Z.gtb_ltb, Z.ltb_irrefl. reflexivity.
Qed.

Lemma fits_int_true (v : Z) : - 2 ^ 31 <= v < 2 ^ 31 -> fits_int v = true.
Proof.
  intros B. unfold fits_int. apply andb_true_iff.
  split; [apply Z.leb_le | apply Z.ltb_lt]; lia.
Qed.

Lemma fits_long_long_true (v : Z) :
  - 2 ^ 63 <= v < 2 ^ 63 -> fits_long_long v = true.
Proof.
  intros B. unfold fits_long_long. apply andb_true_iff.
  split; [apply Z.leb_le | apply Z.ltb_lt]; lia.
Qed.

Lemma Image_resize_ok (img : Image) (w h : Z) :
  1 <= w < 2 ^ 31 -> 1 <= h < 2 ^ 31 -> resize_allocates img w h = true ->
  exists r, Image_resize img (w, h) = Ok r /\
            mode r = mode img /\ width r = w /\ height r = h.
Proof.
  intros Hw Hh A. unfold Image_resize. rewrite A.
  destruct ((w =? width img) && (h =? height img))%bool.
  - eexists. repeat split.
  - rewrite andb_false_r.
    rewrite (fits_int_true w), (fits_int_true h) by lia.
    replace (w <? 1) with false by (symmetry; apply Z.ltb_ge; lia).
    replace (h <? 1) with false by (symmetry; apply Z.ltb_ge; lia).
    simpl. eexists. repeat split.
Qed.

Lemma Image_resize_other_size (img : Image) (w h : Z) :
  w < 1 \/ h < 1 -> 0 < width img -> 0 < height img ->
  ((w =? width img) && (h =? height img))%bool = false.
Proof.
  intros D Hw Hh. apply andb_false_iff.
  destruct D; [left | right]; apply Z.eqb_neq; lia.
Qed.

Lemma Image_resize_refused (img : Image) (w h : Z) :
  w < 1 \/ h < 1 -> 0 < width img -> 0 < height img ->
  - 2 ^ 31 <= w < 2 ^ 31 -> - 2 ^ 31 <= h < 2 ^ 31 ->
  resize_allocates img w h = true ->
  Image_resize img (w, h) = Raise (ValueError "height and width must be > 0").
Proof.
  intros D Hw Hh Bw Bh A. unfold Image_resize.
  rewrite (Image_resize_other_size img w h D Hw Hh), A, andb_false_r.
  rewrite (fits_int_true w), (fits_int_true h) by lia.
  simpl.
  replace ((w <? 1) || (h <? 1))%bool with true; [reflexivity|].
  symmetry. apply orb_true_iff.
  destruct D; [left | right]; apply Z.ltb_lt; assumption.
Qed.

Lemma Image_resize_raises (img : Image) (w h : Z) :
  w < 1 \/ h < 1 -> 0 < width img -> 0 < height img ->
  exists e, Image_resize img (w, h) = Raise e.
Proof.
  intros D Hw Hh. unfold Image_resize.
  rewrite (Image_resize_other_size img w h D Hw Hh).
  destruct (premultiplied (mode img) && negb (resize_allocates img w h))%bool;
    [eexists; reflexivity|].
  destruct (negb (fits_int w) || negb (fits_int h))%bool; [eexists; reflexivity|].
  replace ((w <? 1) || (h <? 1))%bool with true; [eexists; reflexivity|].
  symmetry. apply orb_true_iff.
  destruct D; [left | right]; apply Z.ltb_lt; assumption.
Qed.

Lemma Image_resize_size (img r : Image) (sz : Z * Z) :
  Image_resize img sz = Ok r -> Image_size r = sz /\ mode r = mode img.
Proof.
  destruct sz as [w h]. unfold Image_resize.
  repeat match goal with
         | |- context [if ?b then _ else _] => destruct b
         end;
    intros E; try discriminate E; injection E as <-; split; reflexivity.
Qed.

Lemma resize_to_square_unfold (self : ImageProcessor) (img : Image)
  (dimension : Z) :
  resize_to_square self img dimension =
    let? dims :=
      new_dimensions (width img) (height img)
        (dimension_or_target self dimension) in
    Image_resize img dims.
Proof. reflexivity. Qed.

Lemma apply_padding_square (self : ImageProcessor) (img : Image) (pad_color : color) :
  width img = height img -> apply_padding self img pad_color = Ok img.
Proof.
  intros E. unfold apply_padding, Image_size. rewrite E, Z.eqb_refl. reflexivity.
Qed.

Lemma apply_padding_unfold (self : ImageProcessor) (img : Image)
  (pad_color : color) :
  width img <> height img ->
  apply_padding self img pad_color =
    let? square_img :=
      Image_new (mode img) (target_size self, target_size self)
        (if String.eqb (mode img) "RGB" then pad_color else [114]) in
    Ok (Image_paste square_img img (0, 0)).
Proof.
  intros N. unfold apply_padding, Image_size.
  replace (width img =? height img) with false
    by (symmetry; apply Z.eqb_neq; exact N).
  reflexivity.
Qed.

Lemma Image_new_ok (m : string) (w h : Z) (c : color) (ink : pixel) :
  0 <= w < 2 ^ 31 -> 0 <= h < 2 ^ 31 ->
  new_allocates m w h = true -> fill_ink m c = Ok ink ->
  Image_new m (w, h) c =
    Ok {| mode := m; width := w; height := h; getpixel := fun _ _ => ink |}.
Proof.
  intros Hw Hh A I. unfold Image_new. rewrite A, I.
  replace (w <? 0) with false by (symmetry; apply Z.ltb_ge; lia).
  replace (h <? 0) with false by (symmetry; apply Z.ltb_ge; lia).
  replace (2 ^ 31 <=? w) with false by (symmetry; apply Z.leb_gt; lia).
  replace (2 ^ 31 <=? h) with false by (symmetry; apply Z.leb_gt; lia).
  reflexivity.
Qed.

Lemma Image_new_size (m : string) (sz : Z * Z) (c : color) (r : Image) :
  Image_new m sz c = Ok r -> Image_size r = sz /\ mode r = m.
Proof.
  destruct sz as [w h]. unfold Image_new.
  repeat match goal with
         | |- context [if ?b then _ else _] => destruct b
         end; try discriminate.
  destruct (fill_ink m c); cbn [rbind]; intros E; [|discriminate E].
  injection E as <-. split; reflexivity.
Qed.

(** Whatever apply_padding returns for a non-square image is a canvas of
    the size (target_size, target_size) and of the image's mode. *)
Lemma apply_padding_canvas_size (self : ImageProcessor) (img c : Image)
  (pad_color : color) :
  width img <> height img -> apply_padding self img pad_color = Ok c ->
  Image_size c = (target_size self, target_size self) /\ mode c = mode img.
Proof.
  intros N. rewrite (apply_padding_unfold self img pad_color N).
  destruct (Image_new (mode img) (target_size self, target_size self)
              (if String.eqb (mode img) "RGB" then pad_color else [114]))
    as [sq|e] eqn:Q; cbn [rbind]; intros E; [|discriminate E].
  injection E as <-. destruct (Image_new_size _ _ _ _ Q) as [S M].
  unfold Image_size in *. simpl. injection S as Sw Sh.
  split; [f_equal; assumption | exact M].
Qed.

Lemma apply_padding_not_square (self : ImageProcessor) (img : Image)
  (pad_color : color) (ink : pixel) :
  width img <> height img -> 0 <= target_size self < 2 ^ 31 ->
  new_allocates (mode img) (target_size self) (target_size self) = true ->
  fill_ink (mode img)
    (if String.eqb (mode img) "RGB" then pad_color else [114]) = Ok ink ->
  apply_padding self img pad_color =
    Ok (Image_paste
          {| mode := mode img; width := target_size self;
             height := target_size self; getpixel := fun _ _ => ink |}
          img (0, 0)).
Proof.
  intros N T A I. rewrite (apply_padding_unfold self img pad_color N).
  rewrite (Image_new_ok _ _ _ _ ink T T A I). reflexivity.
Qed.

(** The ink of the default pad colour in mode "RGB", and of a colour of
    three values the codec can parse. *)
Lemma fill_ink_RGB (r g b : Z) :
  - 2 ^ 63 <= r < 2 ^ 63 -> - 2 ^ 31 <= g < 2 ^ 31 -> - 2 ^ 31 <= b < 2 ^ 31 ->
  fill_ink "RGB" [r; g; b] = Ok (rgb_ink r g b).
Proof.
  intros R G B. unfold fill_ink. cbn [bands8 String.eqb Ascii.eqb Bool.eqb].
  cbn [List.length Nat.eqb orb andb uint8_ink].
  rewrite (fits_long_long_true r), (fits_int_true g), (fits_int_true b) by lia.
  reflexivity.
Qed.

(** The ink of (114,) in a mode stored as 8-bit bands: 114 in the first
    band, 0 in the others. *)
Lemma fill_ink_114 (m : string) (n : Z) :
  bands8 m = Some n ->
  fill_ink m [114] = Ok (Int 114 :: repeat (Int 0) (Z.to_nat (n - 1))).
Proof.
  intros B. unfold fill_ink. rewrite B.
  change (Nat.eqb (List.length [114]) 3 || Nat.eqb (List.length [114]) 4)%bool
    with false.
  rewrite andb_false_r.
  unfold bands8 in B.
  repeat match type of B with
         | (if ?b then _ else _) = _ => destruct b
         end;
    try discriminate B; injection B as <-; reflexivity.
Qed.

Lemma call_target_size (op : operation) (self : ImageProcessor) (w : W) :
  target_size (processor (call op self w)) = target_size self.
Proof.
  destruct op; simpl; try reflexivity.
  - destruct (process_images_in_folder self w); reflexivity.
  - destruct (process_single_image self image_path output_dir w); reflexivity.
  - destruct (store_image img original_img_path output_dir w); reflexivity.
Qed.

Lemma call_source_folder (op : operation) (self : ImageProcessor) (w : W) :
  source_folder (processor (call op self w)) =
    match op with
    | Set_source_folder p => p
    | _ => source_folder self
    end.
Proof.
  destruct op; simpl; try reflexivity.
  - destruct (process_images_in_folder self w); reflexivity.
  - destruct (process_single_image self image_path output_dir w); reflexivity.
  - destruct (store_image img original_img_path output_dir w); reflexivity.
Qed.

Lemma run_target_size (ops : list operation) (self : ImageProcessor) (w : W) :
  target_size (fst (run ops self w)) = target_size self.
Proof.
  revert self w. induction ops as [|op rest IH]; intros self w; [reflexivity|].
  simpl. rewrite IH. apply call_target_size.
Qed.

Lemma apply_padding_pixels (self : ImageProcessor) (img : Image)
  (pad_color : color) (ink : pixel) :
  width img <> height img -> 0 <= target_size self < 2 ^ 31 ->
  new_allocates (mode img) (target_size self) (target_size self) = true ->
  fill_ink (mode img)
    (if String.eqb (mode img) "RGB" then pad_color else [114]) = Ok ink ->
  exists c, apply_padding self img pad_color = Ok c /\
    mode c = mode img /\
    Image_size c = (target_size self, target_size self) /\
    forall x y, 0 <= x < target_size self -> 0 <= y < target_size self ->
      getpixel c x y =
        if ((x <? width img) && (y <? height img))%bool
        then getpixel img x y
        else ink.
Proof.
  intros N T A I. rewrite (apply_padding_not_square self img pad_color ink N T A I).
  eexists; split; [reflexivity|].
  split; [reflexivity|]. split; [reflexivity|].
  intros x y Hx Hy. simpl.
  replace (0 <=? x) with true by (symmetry; apply Z.leb_le; lia).
  replace (0 <=? y) with true by (symmetry; apply Z.leb_le; lia).
  rewrite !Z.sub_0_r. simpl.
  destruct (x <? width img); simpl; [|reflexivity].
  destruct (y <? height img); reflexivity.
Qed.

(** *** C1 (as amended) *)

(** C1, amended: for an image of positive width and height and a positive
    size with max(width, height) * size < 2^50, the new dimensions are
    computed without an exception and follow three cases: if width > height
    the new width is size and the new height is int(height * (size / width)),
    which truncates instead of rounding: it is the floor of the exact
    height * size / width, or one below it when that quotient is an integer;
    if height > width the same with the roles exchanged; if width == height
    both are size.  resize_to_square returns a raster of exactly these
    dimensions whenever both are at least 1 and below 2^31 and the codec
    finds the memory for a raster of these dimensions. *)
Theorem resize_dimensions_truncate (self : ImageProcessor) (img : Image)
  (dimension : Z) :
  0 < width img -> 0 < height img ->
  0 < dimension_or_target self dimension ->
  Z.max (width img) (height img) * dimension_or_target self dimension < 2 ^ 50 ->
  exists nw nh,
    new_dimensions (width img) (height img)
      (dimension_or_target self dimension) = Ok (nw, nh) /\
    (height img < width img ->
       nw = dimension_or_target self dimension /\
       floor_scaled (height img) (dimension_or_target self dimension)
         (width img) nh) /\
    (width img < height img ->
       nh = dimension_or_target self dimension /\
       floor_scaled (width img) (dimension_or_target self dimension)
         (height img) nw) /\
    (width img = height img ->
       nw = dimension_or_target self dimension /\
       nh = dimension_or_target self dimension) /\
    (1 <= nw < 2 ^ 31 -> 1 <= nh < 2 ^ 31 ->
     resize_allocates img nw nh = true ->
       exists r, resize_to_square self img dimension = Ok r /\
                 Image_size r = (nw, nh)).
Proof.
  intros Hw Hh Hs Hb.
  rewrite resize_to_square_unfold.
  remember (dimension_or_target self dimension) as size eqn:Es.
  remember (width img) as w eqn:Ew. remember (height img) as h eqn:Eh.
  assert (R : forall nw nh, 1 <= nw < 2 ^ 31 -> 1 <= nh < 2 ^ 31 ->
            resize_allocates img nw nh = true ->
            exists r, Image_resize img (nw, nh) = Ok r /\ Image_size r = (nw, nh)).
  { intros nw nh A B M.
    destruct (Image_resize_ok img nw nh A B M) as (r & E & _ & Rw & Rh).
    exists r. split; [exact E|]. unfold Image_size. rewrite Rw, Rh. reflexivity. }
  unfold new_dimensions.
  destruct (Z.gtb_spec w h) as [G|G].
  - destruct (PyNumFacts.scale_bounds h size w) as (nh & Q & F);
      [lia | lia | lia |].
    rewrite Q. cbn [rbind]. exists size, nh.
    split; [reflexivity|]. split; [intros _; split; [reflexivity | exact F]|].
    split; [lia|]. split; [lia|]. apply R.
  - destruct (Z.gtb_spec h w) as [G'|G'].
    + destruct (PyNumFacts.scale_bounds w size h) as (nw & Q & F);
        [lia | lia | lia |].
      rewrite Q. cbn [rbind]. exists nw, size.
      split; [reflexivity|]. split; [lia|].
      split; [intros _; split; [reflexivity | exact F]|].
      split; [lia|]. apply R.
    + cbn [rbind]. exists size, size.
      split; [reflexivity|]. split; [lia|]. split; [lia|].
      split; [intros _; split; reflexivity|]. apply R.
Qed.

(** *** C2 (as amended) *)

(** C2, amended: take a non-square image, a target_size from 0 to
    2^31 - 1 for which the codec finds the memory of the canvas, and let
    the codec accept the fill colour, which is [pad_color] (default
    (114,114,114)) when the mode is exactly "RGB" and the one-element
    colour (114,) for every other mode, three-channel modes included.
    Then apply_padding returns a canvas of the image's mode and of size
    (target_size, target_size); inside the canvas a pixel is the input's
    pixel where the input (anchored at (0,0), clipped to the canvas) covers
    it, and elsewhere it is the ink of the fill colour.  In mode "RGB" the
    ink of a pad colour (r, g, b) the codec can parse is (r, g, b) with each
    value clamped to 0..255, so (114,114,114) by default; in every other
    mode stored as 8-bit bands the ink is 114 in the first band and 0 in the
    others: 114 in mode "L", (114, 0, 0) in mode "YCbCr", (114, 0, 0, 0) in
    mode "RGBA". *)
Theorem padding_canvas_contents (self : ImageProcessor) (img : Image)
  (pad_color : color) (ink : pixel) :
  width img <> height img -> 0 <= target_size self < 2 ^ 31 ->
  new_allocates (mode img) (target_size self) (target_size self) = true ->
  fill_ink (mode img)
    (if String.eqb (mode img) "RGB" then pad_color else [114]) = Ok ink ->
  (exists c, apply_padding self img pad_color = Ok c /\
     mode c = mode img /\
     Image_size c = (target_size self, target_size self) /\
     forall x y, 0 <= x < target_size self -> 0 <= y < target_size self ->
       getpixel c x y =
         if ((x <? width img) && (y <? height img))%bool
         then getpixel img x y
         else ink) /\
  (mode img = "RGB" ->
     forall r g b, pad_color = [r; g; b] ->
       - 2 ^ 63 <= r < 2 ^ 63 -> - 2 ^ 31 <= g < 2 ^ 31 ->
       - 2 ^ 31 <= b < 2 ^ 31 ->
       ink = [Int (clip8 r); Int (clip8 g); Int (clip8 b)]) /\
  (mode img = "RGB" -> pad_color = default_pad_color ->
     ink = [Int 114; Int 114; Int 114]) /\
  (mode img <> "RGB" ->
     forall n, bands8 (mode img) = Some n ->
       ink = Int 114 :: repeat (Int 0) (Z.to_nat (n - 1))).
Proof.
  intros N T A I.
  split; [exact (apply_padding_pixels self img pad_color ink N T A I)|].
  split; [|split].
  - intros M r g b P R G B. rewrite M, P in I.
    change (String.eqb "RGB" "RGB") with true in I. cbv iota in I.
    rewrite (fill_ink_RGB r g b R G B) in I. injection I as <-. reflexivity.
  - intros M P. rewrite M, P in I.
    change (String.eqb "RGB" "RGB") with true in I. cbv iota in I.
    unfold default_pad_color in I.
    rewrite (fill_ink_RGB 114 114 114) in I by lia.
    injection I as <-. reflexivity.
  - intros M n B.
    replace (String.eqb (mode img) "RGB") with false in I
      by (symmetry; apply String.eqb_neq, M).
    rewrite (fill_ink_114 (mode img) n B) in I. injection I as <-. reflexivity.
Qed.

(** *** C3 *)

(** C3: when source_folder does not name an existing directory,
    process_images_in_folder raises the invalid-source-folder ValueError
    and leaves the world exactly as it was: nothing is listed, opened or
    saved and no directory is created. *)
Theorem missing_source_folder_raises (self : ImageProcessor) (w : W) :
  isdir (source_folder self) w = false ->
  process_images_in_folder self w = (Raise invalid_source_folder, w).
Proof. intros E. unfold process_images_in_folder. rewrite E. reflexivity. Qed.

(** *** C4 (as amended) *)

(** C4, amended: for a square image, resize_to_square (called with its
    default dimension) returns a raster of dimensions
    (target_size, target_size) when target_size is at least 1 and below
    2^31 and the codec finds the memory for it; with a target_size below 1,
    which the constructor accepts, it raises for every square image of
    positive sides.  apply_padding returns a square image itself, whatever
    the pad colour and the target_size: no canvas, no pixel touched. *)
Theorem square_resize_and_padding (self : ImageProcessor) (img : Image) :
  width img = height img ->
  (0 < target_size self < 2 ^ 31 ->
   resize_allocates img (target_size self) (target_size self) = true ->
   exists r, resize_to_square self img default_dimension = Ok r /\
             Image_size r = (target_size self, target_size self)) /\
  (target_size self <= 0 -> 0 < width img ->
   exists e, resize_to_square self img default_dimension = Raise e) /\
  (forall pad_color, apply_padding self img pad_color = Ok img).
Proof.
  intros E.
  assert (U : resize_to_square self img default_dimension =
              Image_resize img (target_size self, target_size self)).
  { rewrite resize_to_square_unfold, E, new_dimensions_square.
    reflexivity. }
  split; [|split].
  - intros T A. rewrite U.
    destruct (Image_resize_ok img (target_size self) (target_size self))
      as (r & Q & _ & Rw & Rh); [lia | lia | exact A |].
    exists r. split; [exact Q|]. unfold Image_size. rewrite Rw, Rh. reflexivity.
  - intros T P. rewrite U. apply Image_resize_raises; lia.
  - intros pad_color. apply apply_padding_square, E.
Qed.

(** *** C5 *)

(** C5: the canvas apply_padding allocates for a non-square image has
    dimensions (self.target_size, self.target_size): whatever
    apply_padding returns for such an image has this size, in particular
    when the image is the result of resize_to_square called with any
    dimension argument, also one different from target_size; and
    apply_padding does return such a canvas for that result when
    target_size is from 0 to 2^31 - 1, the codec finds the memory of the
    canvas and accepts the fill colour. *)
Theorem padding_canvas_uses_target_size (self : ImageProcessor) :
  (forall img pad_color c, width img <> height img ->
     apply_padding self img pad_color = Ok c ->
     Image_size c = (target_size self, target_size self)) /\
  (forall img dimension r pad_color c,
     resize_to_square self img dimension = Ok r ->
     width r <> height r ->
     apply_padding self r pad_color = Ok c ->
     Image_size c = (target_size self, target_size self)) /\
  (forall img dimension r pad_color ink,
     resize_to_square self img dimension = Ok r ->
     width r <> height r ->
     0 <= target_size self < 2 ^ 31 ->
     new_allocates (mode img) (target_size self) (target_size self) = true ->
     fill_ink (mode img)
       (if String.eqb (mode img) "RGB" then pad_color else [114]) = Ok ink ->
     exists c, apply_padding self r pad_color = Ok c /\
               Image_size c = (target_size self, target_size self)).
Proof.
  split; [|split].
  - intros img pad_color c N E.
    apply (apply_padding_canvas_size self img c pad_color N E).
  - intros img dimension r pad_color c _ N E.
    apply (apply_padding_canvas_size self r c pad_color N E).
  - intros img dimension r pad_color ink R N T A I.
    assert (M : mode r = mode img).
    { rewrite resize_to_square_unfold in R.
      destruct (new_dimensions (width img) (height img)
                  (dimension_or_target self dimension)) as [sz|e];
        cbn [rbind] in R; [|discriminate R].
      apply (Image_resize_size img r sz R). }
    rewrite <- M in A, I.
    destruct (apply_padding_pixels self r pad_color ink N T A I)
      as (c & E & _ & S & _).
    exists c. split; assumption.
Qed.

(** *** C6 (as amended) *)

(** C6, amended: the constructor stores its target_size argument as given,
    without checking it (640 when it is left out); no operation changes
    target_size, and only set_source_folder changes source_folder.  So
    target_size > 0 holds after any sequence of operations exactly when the
    constructor's argument was positive. *)
Theorem target_size_fixed_by_constructor (src : option string) (n : Z)
  (ops : list operation) (w : W) :
  target_size (__init__ src None) = 640 /\
  target_size (__init__ src (Some n)) = n /\
  (forall self, target_size (fst (run ops self w)) = target_size self) /\
  (forall self op,
     source_folder (processor (call op self w)) =
       match op with
       | Set_source_folder p => p
       | _ => source_folder self
       end) /\
  (0 < target_size (fst (run ops (__init__ src (Some n)) w)) <-> 0 < n).
Proof.
  split; [reflexivity|]. split; [reflexivity|].
  split; [intros self; apply run_target_size|].
  split; [intros self op; apply call_source_folder|].
  rewrite run_target_size. reflexivity.
Qed.

(** *** C7 *)

(** C7: create_output_folder returns OUTPUT_FOLDER joined with the clock
    reading formatted per DATE_FORMAT and leaves the world alone; for a
    valid date with a four-digit year that is "dataset/" followed by
    exactly 14 decimal digits. *)
Theorem output_folder_is_dataset_timestamp (self : ImageProcessor) (w : W) :
  valid_datetime (now w) -> 1000 <= year (now w) ->
  exists ts,
    create_output_folder self w = (Ok ("dataset/" ++ ts), w) /\
    ts = strftime DATE_FORMAT (now w) /\
    "dataset/" ++ ts = PosixPath.join OUTPUT_FOLDER ts /\
    String.length ts = 14%nat /\
    all_digits ts = true.
Proof.
  intros V Y. pose proof (timestamp_fourteen_digits (now w) V Y) as D.
  unfold digits_of_length in D. apply andb_true_iff in D as [L A].
  apply Nat.eqb_eq in L.
  assert (J : PosixPath.join OUTPUT_FOLDER (strftime DATE_FORMAT (now w)) =
              "dataset/" ++ strftime DATE_FORMAT (now w)).
  { unfold PosixPath.join. rewrite (digits_not_startswith_sep _ A). reflexivity. }
  exists (strftime DATE_FORMAT (now w)).
  split; [unfold create_output_folder; rewrite J; reflexivity|].
  split; [reflexivity|]. split; [symmetry; exact J|]. split; assumption.
Qed.

(** *** C8 *)

(** C8: store_image saves the image, through the codec, at the join of the
    output directory with the base name of the original path, and the base
    name of that save path is the base name of the original path, extension
    included. *)
Theorem store_image_keeps_file_name (img : Image)
  (original_img_path output_dir : string) (w : W) :
  store_image img original_img_path output_dir w =
    Image_save img
      (PosixPath.join output_dir (PosixPath.basename original_img_path)) w /\
  PosixPath.basename
    (PosixPath.join output_dir (PosixPath.basename original_img_path)) =
    PosixPath.basename original_img_path.
Proof.
  split; [reflexivity|].
  apply PosixPathFacts.basename_join, PosixPathFacts.basename_no_sep.
Qed.

(** *** C9 *)

(** C9: resize_to_square with dimension 0, the default, is resize_to_square
    with dimension self.target_size: the size used is the argument when it
    is not 0 and target_size when it is, so 0 is never taken from the
    argument. *)
Theorem resize_dimension_zero_is_target (self : ImageProcessor) (img : Image) :
  resize_to_square self img default_dimension =
    resize_to_square self img (target_size self) /\
  resize_to_square self img 0 = resize_to_square self img (target_size self) /\
  dimension_or_target self 0 = target_size self /\
  (forall d, d <> 0 -> dimension_or_target self d = d).
Proof.
  assert (E : dimension_or_target self 0 =
              dimension_or_target self (target_size self)).
  { unfold dimension_or_target. simpl (0 =? 0). cbv iota.
    destruct (target_size self =? 0) eqn:Q; reflexivity. }
  assert (R : resize_to_square self img 0 =
              resize_to_square self img (target_size self)).
  { unfold resize_to_square. rewrite E. reflexivity. }
  split; [exact R|]. split; [exact R|]. split; [reflexivity|].
  intros d D. unfold dimension_or_target.
  replace (d =? 0) with false by (symmetry; apply Z.eqb_neq; exact D).
  reflexivity.
Qed.

(** *** C10 *)

(** C10: for a non-square image whose mode is not exactly "RGB",
    apply_padding does not depend on pad_color: any two pad colours give
    the same outcome, which is that of filling the canvas with the
    one-element colour (114,) and pasting the image at (0,0). *)
Theorem padding_ignores_pad_color_unless_RGB (self : ImageProcessor)
  (img : Image) :
  width img <> height img -> mode img <> "RGB" ->
  (forall pc1 pc2, apply_padding self img pc1 = apply_padding self img pc2) /\
  (forall pc, apply_padding self img pc =
     let? square_img :=
       Image_new (mode img) (target_size self, target_size self) [114] in
     Ok (Image_paste square_img img (0, 0))).
Proof.
  intros N M.
  assert (Q : String.eqb (mode img) "RGB" = false) by (apply String.eqb_neq, M).
  assert (A : forall pc, apply_padding self img pc =
     let? square_img :=
       Image_new (mode img) (target_size self, target_size self) [114] in
     Ok (Image_paste square_img img (0, 0))).
  { intros pc. rewrite (apply_padding_unfold self img pc N), Q. reflexivity. }
  split; [intros pc1 pc2; rewrite (A pc1), (A pc2); reflexivity|].
  exact A.
Qed.

End MethodFacts.


(** * The claims on concrete inputs *)

(** C1 as stated fails: a 1024 x 683 image resized to 640 gets the height
    int(683 * (640 / 1024)) = int(426.875) = 426, where the rounding
    formula gives 427. *)
Lemma resize_truncates_instead_of_rounding :
  ~ resize_follows_spec_formula (H := SimPlatform)
      default_processor (gradient "RGB" 1024 683) default_dimension.
Proof.
  intros (r & E & S).
  assert (D : Image_size r = (640, 426)).
  { vm_compute in E. injection E as <-. reflexivity. }
  rewrite D in S. vm_compute in S. discriminate S.
Qed.

Lemma resize_dimensions_truncate_witness :
  0 < 1024 /\ 0 < 683 /\ 0 < 640 /\ Z.max 1024 683 * 640 < 2 ^ 50 /\
  exists nw nh,
    new_dimensions 1024 683 640 = Ok (nw, nh) /\
    (683 < 1024 -> nw = 640 /\ floor_scaled 683 640 1024 nh) /\
    (1024 < 683 -> nh = 640 /\ floor_scaled 1024 640 683 nw) /\
    (1024 = 683 -> nw = 640 /\ nh = 640) /\
    (1 <= nw < 2 ^ 31 -> 1 <= nh < 2 ^ 31 ->
     sim_allocates nw nh = true ->
       exists r,
         resize_to_square (H := SimPlatform) default_processor
           (gradient "RGB" 1024 683) default_dimension = Ok r /\
         Image_size r = (nw, nh)).
Proof.
  split; [reflexivity|]. split; [reflexivity|]. split; [reflexivity|].
  split; [reflexivity|].
  apply (resize_dimensions_truncate (H := SimPlatform) default_processor
           (gradient "RGB" 1024 683) default_dimension); reflexivity.
Defined.

(** The raster the call returns for the 1024 x 683 image. *)
Example resize_1024_683 :
  exists r,
    resize_to_square (H := SimPlatform) default_processor
      (gradient "RGB" 1024 683) default_dimension = Ok r /\
    Image_size r = (640, 426).
Proof. eexists. split; reflexivity. Qed.

(** C2 as stated fails: a non-square YCbCr image has three channels, and
    its canvas is filled with (114,), which the codec writes as
    (114, 0, 0), not with (114, 114, 114). *)
Lemma padding_not_chosen_by_channel_count :
  ~ padding_follows_spec (H := SimPlatform)
      default_processor (gradient "YCbCr" 640 320).
Proof.
  intros (c & E & _ & _ & P).
  vm_compute in E. injection E as <-.
  change (target_size default_processor) with 640 in P.
  specialize (P 0 639 ltac:(lia) ltac:(lia)).
  vm_compute in P. discriminate P.
Qed.

Lemma padding_canvas_contents_witness :
  30 <> 60 /\ 0 <= 640 < 2 ^ 31 /\
  sim_allocates 640 640 = true /\
  fill_ink (H := SimPlatform) "YCbCr" [114] = Ok [Int 114; Int 0; Int 0] /\
  (exists c,
     apply_padding (H := SimPlatform) default_processor
       (gradient "YCbCr" 30 60) default_pad_color = Ok c /\
     mode c = "YCbCr" /\
     Image_size c = (640, 640) /\
     forall x y, 0 <= x < 640 -> 0 <= y < 640 ->
       getpixel c x y =
         if ((x <? 30) && (y <? 60))%bool
         then [Int (x mod 256); Int (y mod 256); Int 0]
         else [Int 114; Int 0; Int 0]) /\
  ("YCbCr" <> "RGB" ->
     forall n, bands8 "YCbCr" = Some n ->
       [Int 114; Int 0; Int 0] = Int 114 :: repeat (Int 0) (Z.to_nat (n - 1))).
Proof.
  split; [lia|]. split; [lia|]. split; [reflexivity|]. split; [reflexivity|].
  assert (N : width (gradient "YCbCr" 30 60) <> height (gradient "YCbCr" 30 60))
    by (simpl; lia).
  assert (T : 0 <= target_size default_processor < 2 ^ 31) by concrete.
  destruct (padding_canvas_contents (H := SimPlatform) default_processor
              (gradient "YCbCr" 30 60) default_pad_color
              [Int 114; Int 0; Int 0] N T eq_refl eq_refl)
    as (P & _ & _ & Q).
  split; [exact P | exact Q].
Defined.

(** The same on an RGB image with the default pad colour and on a
    grey-level one. *)
Example padding_RGB_and_L :
  (exists c,
     apply_padding (H := SimPlatform) default_processor
       (gradient "RGB" 640 320) default_pad_color = Ok c /\
     getpixel c 10 10 = [Int 10; Int 10; Int 0] /\
     getpixel c 0 639 = [Int 114; Int 114; Int 114]) /\
  (exists c,
     apply_padding (H := SimPlatform) default_processor
       (gradient "L" 30 60) default_pad_color = Ok c /\
     getpixel c 10 10 = [Int 10] /\
     getpixel c 639 0 = [Int 114]).
Proof. split; eexists; repeat split. Qed.

(** A colour of two values is refused for an RGB canvas, and so is a
    canvas side of 2^31. *)
Example padding_refused :
  apply_padding (H := SimPlatform) default_processor
    (gradient "RGB" 640 320) [1; 2] =
    Raise (TypeError
             "color must be int, or tuple of one, three or four elements") /\
  apply_padding (H := SimPlatform) (__init__ None (Some (2 ^ 31)))
    (gradient "RGB" 640 320) default_pad_color = Raise OverflowError.
Proof. split; reflexivity. Qed.

Lemma missing_source_folder_raises_witness :
  isdir "/home/user/photos" sample_world = false /\
  process_images_in_folder (__init__ (Some "/home/user/photos") None) sample_world =
    (Raise invalid_source_folder, sample_world).
Proof.
  split; [reflexivity|].
  apply (missing_source_folder_raises
           (__init__ (Some "/home/user/photos") None) sample_world).
  reflexivity.
Defined.

(** C4 as stated fails: with the target_size -5, which the constructor
    accepts, a square 500 x 500 image is not resized at all: the codec
    refuses the side -5. *)
Lemma square_resize_needs_positive_target_size :
  ~ square_resize_follows_spec (H := SimPlatform)
      (__init__ None (Some (-5))) (gradient "RGB" 500 500).
Proof.
  intros (r & E & _). vm_compute in E. discriminate E.
Qed.

Lemma square_resize_and_padding_witness :
  500 = 500 /\
  (0 < 640 < 2 ^ 31 -> sim_allocates 640 640 = true ->
   exists r,
     resize_to_square (H := SimPlatform) default_processor
       (gradient "RGB" 500 500) default_dimension = Ok r /\
     Image_size r = (640, 640)) /\
  (640 <= 0 -> 0 < 500 ->
   exists e,
     resize_to_square (H := SimPlatform) default_processor
       (gradient "RGB" 500 500) default_dimension = Raise e) /\
  (forall pad_color,
     apply_padding (H := SimPlatform) default_processor
       (gradient "RGB" 500 500) pad_color =
       Ok (gradient "RGB" 500 500)).
Proof.
  split; [reflexivity|].
  apply (square_resize_and_padding (H := SimPlatform) default_processor
           (gradient "RGB" 500 500)); reflexivity.
Defined.

(** The square image is resized at target_size 640 and refused at
    target_size 0. *)
Example square_resize_at_640_and_0 :
  (exists r,
     resize_to_square (H := SimPlatform) default_processor
       (gradient "RGB" 500 500) default_dimension = Ok r /\
     Image_size r = (640, 640)) /\
  resize_to_square (H := SimPlatform) (__init__ None (Some 0))
    (gradient "RGB" 500 500) default_dimension =
    Raise (ValueError "height and width must be > 0").
Proof. split; [eexists; split; reflexivity | reflexivity]. Qed.

Lemma padding_canvas_uses_target_size_witness :
  exists r c,
    resize_to_square (H := SimPlatform) default_processor
      (gradient "RGB" 800 400) 100 = Ok r /\
    Image_size r = (100, 50) /\
    apply_padding default_processor r default_pad_color = Ok c /\
    Image_size c = (640, 640).
Proof.
  pose (r := {| mode := "RGB"; width := 100; height := 50;
                getpixel := nearest (gradient "RGB" 800 400) 100 50 |}).
  assert (R : resize_to_square (H := SimPlatform) default_processor
                (gradient "RGB" 800 400) 100 = Ok r) by reflexivity.
  assert (N : width r <> height r) by (simpl; lia).
  assert (T : 0 <= target_size default_processor < 2 ^ 31) by concrete.
  destruct (padding_canvas_uses_target_size (H := SimPlatform)
              default_processor) as (_ & _ & P).
  destruct (P (gradient "RGB" 800 400) 100 r default_pad_color
              [Int 114; Int 114; Int 114] R N T eq_refl eq_refl)
    as (c & E & S).
  exists r, c. split; [exact R|]. split; [reflexivity|].
  split; [exact E | exact S].
Defined.

(** Resizing a 800 x 400 image to 100 and padding it: the canvas is still
    640 x 640. *)
Example padding_after_resize_to_100 :
  exists r c,
    resize_to_square (H := SimPlatform) default_processor
      (gradient "RGB" 800 400) 100 = Ok r /\
    Image_size r = (100, 50) /\
    apply_padding default_processor r default_pad_color = Ok c /\
    Image_size c = (640, 640).
Proof. do 2 eexists. repeat split. Qed.

(** C6 as stated fails: the constructor accepts a target_size that is not
    positive. *)
Lemma constructor_accepts_nonpositive_target_size :
  ~ 0 < target_size (__init__ None (Some (-5))).
Proof. simpl. lia. Qed.

Lemma target_size_fixed_by_constructor_witness :
  target_size (__init__ None None) = 640 /\
  target_size (__init__ None (Some 320)) = 320 /\
  (forall self,
     target_size
       (fst (run [Set_source_folder "/home/user/input_images";
                  Process_images_in_folder] self sample_world)) =
     target_size self) /\
  (forall self op,
     source_folder (processor (call op self sample_world)) =
       match op with
       | Set_source_folder p => p
       | _ => source_folder self
       end) /\
  (0 < target_size
         (fst (run [Set_source_folder "/home/user/input_images";
                    Process_images_in_folder]
                 (__init__ None (Some 320)) sample_world)) <-> 0 < 320).
Proof.
  exact (target_size_fixed_by_constructor None 320
           [Set_source_folder "/home/user/input_images";
            Process_images_in_folder] sample_world).
Defined.

Lemma output_folder_is_dataset_timestamp_witness :
  valid_datetime (now sample_world) /\ 1000 <= year (now sample_world) /\
  exists ts,
    create_output_folder default_processor sample_world =
      (Ok ("dataset/" ++ ts), sample_world) /\
    ts = strftime DATE_FORMAT (now sample_world) /\
    "dataset/" ++ ts = PosixPath.join OUTPUT_FOLDER ts /\
    String.length ts = 14%nat /\
    all_digits ts = true.
Proof.
  assert (V : valid_datetime (now sample_world))
    by (unfold valid_datetime; concrete).
  split; [exact V|]. split; [concrete|].
  apply (output_folder_is_dataset_timestamp default_processor sample_world);
    [exact V | concrete].
Defined.

(** The folder of the sample clock reading. *)
Example output_folder_at_noon :
  create_output_folder default_processor sample_world =
    (Ok "dataset/20240307120509", sample_world).
Proof. reflexivity. Qed.

(** Storing under the sample world: the file lands under the original
    name. *)
Example store_image_in_sample_world :
  lookup_file "dataset/20240307120509/wide.png"
    (sim_files
       (snd (store_image (gradient "RGB" 640 640)
               "/home/user/input_images/wide.png" "dataset/20240307120509"
               sample_world))) =
    Some (gradient "RGB" 640 640).
Proof. reflexivity. Qed.

Lemma resize_dimension_zero_is_target_witness :
  resize_to_square (H := SimPlatform) default_processor
    (gradient "RGB" 800 400) default_dimension =
    resize_to_square default_processor (gradient "RGB" 800 400) 640 /\
  resize_to_square (H := SimPlatform) default_processor
    (gradient "RGB" 800 400) 0 =
    resize_to_square default_processor (gradient "RGB" 800 400) 640 /\
  dimension_or_target default_processor 0 = 640 /\
  (forall d, d <> 0 -> dimension_or_target default_processor d = d).
Proof.
  exact (resize_dimension_zero_is_target (H := SimPlatform) default_processor
           (gradient "RGB" 800 400)).
Defined.

Lemma padding_ignores_pad_color_unless_RGB_witness :
  640 <> 320 /\ "RGBA" <> "RGB" /\
  (forall pc1 pc2,
     apply_padding (H := SimPlatform) default_processor
       (gradient "RGBA" 640 320) pc1 =
     apply_padding default_processor (gradient "RGBA" 640 320) pc2) /\
  (forall pc,
     apply_padding (H := SimPlatform) default_processor
       (gradient "RGBA" 640 320) pc =
       let? square_img := Image_new "RGBA" (640, 640) [114] in
       Ok (Image_paste square_img (gradient "RGBA" 640 320) (0, 0))).
Proof.
  split; [lia|]. split; [discriminate|].
  apply (padding_ignores_pad_color_unless_RGB (H := SimPlatform)
           default_processor (gradient "RGBA" 640 320));
    [concrete | discriminate].
Defined.

(** With mode "RGB" the pad colour does reach the canvas. *)
Example pad_color_used_for_RGB :
  exists c,
    apply_padding (H := SimPlatform) default_processor
      (gradient "RGB" 640 320) [0; 0; 255] = Ok c /\
    getpixel c 0 639 = [Int 0; Int 0; Int 255].
Proof. eexists. split; reflexivity. Qed.

(** The whole run of main.py on the sample world: both files are written
    under their own names into one timestamped directory, each 640 x 640. *)
Example main_on_sample_world :
  fst (main sample_world) = Ok tt /\
  sim_dirs (snd (main sample_world)) =
    ["dataset/20240307120509"; "/home/user"; "/home/user/input_images"] /\
  map (fun f => (fst f, Image_size (snd f))) (sim_files (snd (main sample_world))) =
    [("dataset/20240307120509/tall.jpg", (640, 640));
     ("dataset/20240307120509/wide.png", (640, 640));
     ("/home/user/input_images/wide.png", (800, 400));
     ("/home/user/input_images/tall.jpg", (30, 60))].
Proof. repeat split. Qed.

(** * Further properties of the methods *)

(** ** The scaled side *)

(** [int(n * (a / b))] for [0 < n < b]: never negative, always below [a];
    0 when [n * a < b] and at least 1 when [n * a > b]. *)
Lemma scale_shape (n a b : Z) :
  0 < n < b -> 0 < a -> b * a < 2 ^ 50 ->
  exists r,
    PyNum.scale n a b = Ok r /\
    0 <= r < a /\
    (n * a < b -> r = 0) /\
    (b < n * a -> 1 <= r).
Proof.
  intros N A BA.
  destruct (PyNumFacts.scale_bounds n a b N A BA) as (r & Q & [F1 F2] & F3).
  exists r. split; [exact Q|].
  pose proof (Z.div_mod (n * a) b ltac:(lia)) as DM.
  pose proof (Z.mod_pos_bound (n * a) b ltac:(lia)) as MB.
  assert (NA : 0 < n * a) by nia.
  assert (QA : n * a / b < a)
    by (apply Z.div_lt_upper_bound; [lia|]; apply Z.mul_lt_mono_pos_r; lia).
  assert (Q0 : 0 <= n * a / b) by (apply Z.div_pos; lia).
  remember (n * a / b) as q eqn:Eq. remember ((n * a) mod b) as m eqn:Em.
  remember (n * a) as p eqn:Ep.
  assert (Z0 : q = 0 -> r = 0).
  { intros ->. apply F3. lia. }
  split; [split; [|lia]|split].
  - destruct (Z.eq_dec q 0) as [E|E]; [rewrite (Z0 E); lia | lia].
  - intros S. apply Z0. nia.
  - intros S. assert (1 <= q) by nia.
    destruct (Z.eq_dec m 0) as [E|E]; [|rewrite (F3 E); lia].
    assert (2 <= q) by nia. lia.
Qed.

(** ** The loop *)

(** Looping over a list in two parts: the second part runs from the world
    the first one leaves, and only when the first one raised nothing. *)
Lemma for_each_app {W A : Type} (xs ys : list A) (body : A -> io W unit) (w : W) :
  for_each (xs ++ ys)%list body w =
    match for_each xs body w with
    | (Ok _, w') => for_each ys body w'
    | (Raise e, w') => (Raise e, w')
    end.
Proof.
  revert w. induction xs as [|x xs IH]; intros w; [reflexivity|].
  simpl. unfold io_bind. destruct (body x w) as [[u|e] w']; [apply IH | reflexivity].
Qed.

(** A loop whose body keeps an invariant and raises nothing under it
    raises nothing and keeps the invariant. *)
Lemma for_each_invariant {W A : Type} (xs : list A) (body : A -> io W unit)
  (Inv : W -> Prop) :
  (forall x w, In x xs -> Inv w -> exists w', body x w = (Ok tt, w') /\ Inv w') ->
  forall w, Inv w -> exists w', for_each xs body w = (Ok tt, w') /\ Inv w'.
Proof.
  induction xs as [|x xs IH]; intros B w I.
  - exists w. split; [reflexivity | exact I].
  - destruct (B x w (or_introl eq_refl) I) as (w1 & E & I1).
    destruct (IH (fun y v K => B y v (or_intror K)) w1 I1) as (w2 & E2 & I2).
    exists w2. split; [|exact I2]. simpl. unfold io_bind. rewrite E. exact E2.
Qed.

(** ** Base names *)

(** A path is a directory part, empty or ending in the separator, followed
    by its base name. *)
Lemma basename_split (p : string) :
  exists dir, p = dir ++ PosixPath.basename p /\
              (dir = "" \/ PosixPath.endswith_sep dir = true).
Proof.
  unfold PosixPath.basename.
  induction p as [|c r IH]; [exists ""; split; [reflexivity | left; reflexivity]|].
  destruct IH as (dir & E & D).
  cbn [PosixPath.rfind_sep]. pose proof (PosixPathFacts.rfind_sep_lower r) as L.
  destruct (0 <=? PosixPath.rfind_sep r) eqn:Q.
  - apply Z.leb_le in Q.
    replace (Z.to_nat (PosixPath.rfind_sep r + 1 + 1))
      with (S (Z.to_nat (PosixPath.rfind_sep r + 1))) by lia.
    cbn [PosixPath.slice_from].
    exists (String c dir). split; [simpl; f_equal; exact E|]. right.
    destruct D as [D|D].
    + exfalso. subst dir. simpl in E.
      pose proof (PosixPathFacts.basename_no_sep r) as N.
      unfold PosixPath.basename in N. rewrite <- E in N. lia.
    + destruct dir as [|d dir']; [discriminate D | exact D].
  - apply Z.leb_gt in Q.
    destruct (Ascii.eqb c PosixPath.sep) eqn:C.
    + apply Ascii.eqb_eq in C. subst c.
      exists (String PosixPath.sep ""). split; [reflexivity | right; reflexivity].
    + exists "". split; [reflexivity | left; reflexivity].
Qed.

(** ** Timestamps are read back *)

Lemma digits_value_decimal (n : Z) :
  1000 <= n <= 9999 -> digits_value (decimal n) = n.
Proof.
  intros Hn.
  apply Z.eqb_eq.
  apply (forall_range (fun z => digits_value (decimal z) =? z) 1000 (Z.to_nat 9000));
    [vm_compute; reflexivity | lia].
Qed.

Lemma digits_value_decimal2 (n : Z) :
  0 <= n <= 99 -> digits_value (decimal2 n) = n.
Proof.
  intros Hn.
  apply Z.eqb_eq.
  apply (forall_range (fun z => digits_value (decimal2 z) =? z) 0 (Z.to_nat 100));
    [vm_compute; reflexivity | lia].
Qed.

Lemma append_inj_length (a a' b b' : string) :
  String.length a = String.length a' -> a ++ b = a' ++ b' -> a = a' /\ b = b'.
Proof.
  revert a'. induction a as [|c r IH]; intros [|c' r'] L E; try discriminate L.
  - split; [reflexivity | exact E].
  - simpl in L, E. injection L as L. injection E as -> E.
    destruct (IH r' L E) as [-> ->]. split; reflexivity.
Qed.

Lemma append_inv_head (a b c : string) : a ++ b = a ++ c -> b = c.
Proof.
  induction a as [|x r IH]; simpl; intros E; [exact E|].
  injection E as E. apply IH, E.
Qed.

Lemma digits_of_length_length (k : nat) (s : string) :
  digits_of_length k s = true -> String.length s = k.
Proof.
  unfold digits_of_length. intros E. apply andb_true_iff in E as [L _].
  apply Nat.eqb_eq, L.
Qed.

(** The timestamp of a valid clock reading with a four-digit year gives
    the reading back. *)
Lemma strftime_DATE_FORMAT_inj (t u : datetime) :
  valid_datetime t -> 1000 <= year t ->
  valid_datetime u -> 1000 <= year u ->
  strftime DATE_FORMAT t = strftime DATE_FORMAT u -> t = u.
Proof.
  intros (Y & Mo & D & Hh & Mi & S) Y' (Yu & Mou & Du & Hu & Miu & Su) Yu' E.
  rewrite !strftime_DATE_FORMAT in E.
  assert (L4 : forall n, 1000 <= n <= 9999 -> String.length (decimal n) = 4%nat)
    by (intros n Hn; apply digits_of_length_length, decimal_four_digits, Hn).
  assert (L2 : forall n, 0 <= n <= 59 -> String.length (decimal2 n) = 2%nat)
    by (intros n Hn; apply digits_of_length_length, decimal2_two_digits; lia).
  apply append_inj_length in E as [E1 E]; [|rewrite !L4 by lia; reflexivity].
  apply append_inj_length in E as [E2 E]; [|rewrite !L2 by lia; reflexivity].
  apply append_inj_length in E as [E3 E]; [|rewrite !L2 by lia; reflexivity].
  apply append_inj_length in E as [E4 E]; [|rewrite !L2 by lia; reflexivity].
  apply append_inj_length in E as [E5 E]; [|rewrite !L2 by lia; reflexivity].
  apply append_inj_length in E as [E6 _]; [|rewrite !L2 by lia; reflexivity].
  apply (f_equal digits_value) in E1, E2, E3, E4, E5, E6.
  rewrite !digits_value_decimal in E1 by lia.
  rewrite !digits_value_decimal2 in E2, E3, E4, E5, E6 by lia.
  destruct t, u. simpl in *. congruence.
Qed.

Section PipelineFacts.

Context {W : Type} `{Platform W}.

(** ** resize_to_square *)

Lemma new_dimensions_wide (w h size : Z) :
  h < w ->
  new_dimensions w h size =
    (let? new_height := PyNum.scale h size w in Ok (size, new_height)).
Proof.
  intros G. unfold new_dimensions.
  replace (w >? h) with true by (symmetry; apply Z.gtb_lt; lia). reflexivity.
Qed.

Lemma new_dimensions_tall (w h size : Z) :
  w < h ->
  new_dimensions w h size =
    (let? new_width := PyNum.scale w size h in Ok (new_width, size)).
Proof.
  intros G. unfold new_dimensions.
  replace (w >? h) with false by (symmetry; rewrite Z.gtb_ltb; apply Z.ltb_ge; lia).
  replace (h >? w) with true by (symmetry; apply Z.gtb_lt; lia). reflexivity.
Qed.

(** The shape of what resize_to_square returns, for a square image or one
    whose shorter side times the size exceeds the longer side. *)
Lemma resize_shape (self : ImageProcessor) (img : Image) (dimension : Z) :
  0 < width img -> 0 < height img ->
  0 < dimension_or_target self dimension < 2 ^ 31 ->
  Z.max (width img) (height img) * dimension_or_target self dimension < 2 ^ 50 ->
  (forall nw nh,
     new_dimensions (width img) (height img)
       (dimension_or_target self dimension) = Ok (nw, nh) ->
     resize_allocates img nw nh = true) ->
  (width img = height img \/
   Z.max (width img) (height img) <
     Z.min (width img) (height img) * dimension_or_target self dimension) ->
  exists r,
    resize_to_square self img dimension = Ok r /\
    mode r = mode img /\
    1 <= width r <= dimension_or_target self dimension /\
    1 <= height r <= dimension_or_target self dimension /\
    (width r = dimension_or_target self dimension \/
     height r = dimension_or_target self dimension) /\
    (width img < height img <-> width r < height r) /\
    (width img = height img <-> width r = height r).
Proof.
  intros Hw Hh Hs Hb Hm Hg.
  rewrite resize_to_square_unfold.
  remember (dimension_or_target self dimension) as size eqn:Es.
  remember (width img) as w eqn:Ew. remember (height img) as h eqn:Eh.
  destruct (Z.lt_trichotomy w h) as [L|[E|G]].
  - rewrite new_dimensions_tall in Hm |- * by exact L.
    destruct (scale_shape w size h) as (nw & Q & B & _ & P); [lia | lia | lia |].
    rewrite Q in Hm |- *. cbn [rbind] in Hm |- *.
    assert (1 <= nw) by (apply P; lia).
    destruct (Image_resize_ok img nw size) as (r & R & M & Rw & Rh);
      [lia | lia | apply Hm; reflexivity |].
    exists r. split; [exact R|]. split; [exact M|]. rewrite Rw, Rh.
    repeat split; try lia; auto.
  - rewrite <- E, new_dimensions_square in Hm |- *. cbn [rbind].
    destruct (Image_resize_ok img size size) as (r & R & M & Rw & Rh);
      [lia | lia | apply Hm; reflexivity |].
    exists r. split; [exact R|]. split; [exact M|]. rewrite Rw, Rh.
    repeat split; try lia; auto.
  - rewrite new_dimensions_wide in Hm |- * by exact G.
    destruct (scale_shape h size w) as (nh & Q & B & _ & P); [lia | lia | lia |].
    rewrite Q in Hm |- *. cbn [rbind] in Hm |- *.
    assert (1 <= nh) by (apply P; lia).
    destruct (Image_resize_ok img size nh) as (r & R & M & Rw & Rh);
      [lia | lia | apply Hm; reflexivity |].
    exists r. split; [exact R|]. split; [exact M|]. rewrite Rw, Rh.
    repeat split; try lia; auto.
Qed.

(** An image so elongated that its shorter side times the size stays below
    its longer side: the shorter new side is 0 and the codec refuses. *)
Lemma resize_elongated (self : ImageProcessor) (img : Image) (dimension : Z) :
  0 < width img -> 0 < height img ->
  0 < dimension_or_target self dimension < 2 ^ 31 ->
  Z.max (width img) (height img) * dimension_or_target self dimension < 2 ^ 50 ->
  (forall nw nh,
     new_dimensions (width img) (height img)
       (dimension_or_target self dimension) = Ok (nw, nh) ->
     resize_allocates img nw nh = true) ->
  Z.min (width img) (height img) * dimension_or_target self dimension <
    Z.max (width img) (height img) ->
  new_dimensions (width img) (height img) (dimension_or_target self dimension) =
    Ok (if width img >? height img
        then (dimension_or_target self dimension, 0)
        else (0, dimension_or_target self dimension)) /\
  resize_to_square self img dimension =
    Raise (ValueError "height and width must be > 0").
Proof.
  intros Hw Hh Hs Hb Hm He.
  rewrite resize_to_square_unfold.
  remember (dimension_or_target self dimension) as size eqn:Es.
  assert (P31 : 2 ^ 31 = 2147483648) by reflexivity.
  destruct (Z.lt_trichotomy (width img) (height img)) as [L|[E|G]].
  - rewrite new_dimensions_tall in Hm |- * by exact L.
    destruct (scale_shape (width img) size (height img)) as (nw & Q & _ & Z0 & _);
      [lia | lia | lia |].
    rewrite Q, Z0 in Hm |- * by lia. cbn [rbind] in Hm |- *.
    replace (width img >? height img) with false
      by (symmetry; rewrite Z.gtb_ltb; apply Z.ltb_ge; lia).
    split; [reflexivity|].
    apply Image_resize_refused; [lia | lia | lia | lia | lia |].
    apply Hm. reflexivity.
  - exfalso. rewrite <- E, Z.max_id, Z.min_id in He. nia.
  - rewrite new_dimensions_wide in Hm |- * by exact G.
    destruct (scale_shape (height img) size (width img)) as (nh & Q & _ & Z0 & _);
      [lia | lia | lia |].
    rewrite Q, Z0 in Hm |- * by lia. cbn [rbind] in Hm |- *.
    replace (width img >? height img) with true by (symmetry; apply Z.gtb_lt; lia).
    split; [reflexivity|].
    apply Image_resize_refused; [lia | lia | lia | lia | lia |].
    apply Hm. reflexivity.
Qed.

(** X1: for an image of positive sides and a size from 1 to 2^31 - 1 with
    max(width, height) * size < 2^50, when the codec finds the memory for
    the raster of the new dimensions and the image is square or its shorter
    side times the size exceeds its longer side, resize_to_square returns a
    raster in the image's mode whose sides lie between 1 and size, one of
    them equal to size, and which is wide, tall or square as the image
    is. *)
Theorem resize_fits_and_keeps_orientation (self : ImageProcessor)
  (img : Image) (dimension : Z) :
  0 < width img -> 0 < height img ->
  0 < dimension_or_target self dimension < 2 ^ 31 ->
  Z.max (width img) (height img) * dimension_or_target self dimension < 2 ^ 50 ->
  (forall nw nh,
     new_dimensions (width img) (height img)
       (dimension_or_target self dimension) = Ok (nw, nh) ->
     resize_allocates img nw nh = true) ->
  (width img = height img \/
   Z.max (width img) (height img) <
     Z.min (width img) (height img) * dimension_or_target self dimension) ->
  exists r,
    resize_to_square self img dimension = Ok r /\
    mode r = mode img /\
    1 <= width r <= dimension_or_target self dimension /\
    1 <= height r <= dimension_or_target self dimension /\
    (width r = dimension_or_target self dimension \/
     height r = dimension_or_target self dimension) /\
    (width img < height img <-> width r < height r) /\
    (width img = height img <-> width r = height r).
Proof. exact (resize_shape self img dimension). Qed.

(** X2: for an image of positive sides and a size from 1 to 2^31 - 1 with
    max(width, height) * size < 2^50, when the codec finds the memory the
    call needs and the image's shorter side times the size is below its
    longer side, the shorter new side computed by resize_to_square is
    exactly 0, and the call raises the codec's ValueError instead of
    returning a raster. *)
Theorem resize_refuses_elongated_image (self : ImageProcessor)
  (img : Image) (dimension : Z) :
  0 < width img -> 0 < height img ->
  0 < dimension_or_target self dimension < 2 ^ 31 ->
  Z.max (width img) (height img) * dimension_or_target self dimension < 2 ^ 50 ->
  (forall nw nh,
     new_dimensions (width img) (height img)
       (dimension_or_target self dimension) = Ok (nw, nh) ->
     resize_allocates img nw nh = true) ->
  Z.min (width img) (height img) * dimension_or_target self dimension <
    Z.max (width img) (height img) ->
  new_dimensions (width img) (height img) (dimension_or_target self dimension) =
    Ok (if width img >? height img
        then (dimension_or_target self dimension, 0)
        else (0, dimension_or_target self dimension)) /\
  resize_to_square self img dimension =
    Raise (ValueError "height and width must be > 0").
Proof. exact (resize_elongated self img dimension). Qed.

(** ** apply_padding *)

Lemma padding_square_stable (self : ImageProcessor) (img c : Image)
  (pad_color : color) :
  apply_padding self img pad_color = Ok c ->
  width c = height c /\
  forall pad_color', apply_padding self c pad_color' = Ok c.
Proof.
  intros E.
  assert (S : width c = height c).
  { destruct (Z.eq_dec (width img) (height img)) as [Q|N].
    - rewrite (apply_padding_square self img pad_color Q) in E.
      injection E as <-. exact Q.
    - destruct (apply_padding_canvas_size self img c pad_color N E) as [Sz _].
      unfold Image_size in Sz. injection Sz as -> ->. reflexivity. }
  split; [exact S|]. intros pc. apply apply_padding_square, S.
Qed.

(** X3: whatever apply_padding returns is a square image, and padding that
    result again, with any pad colour, returns it unchanged: padding twice
    is padding once.  And apply_padding does return an image when its
    input is square, or when target_size is from 0 to 2^31 - 1 and the
    codec finds the memory of the canvas and accepts the fill colour. *)
Theorem padding_is_square_and_idempotent (self : ImageProcessor)
  (img : Image) (pad_color : color) :
  (forall c, apply_padding self img pad_color = Ok c ->
     width c = height c /\
     forall pad_color', apply_padding self c pad_color' = Ok c) /\
  (width img = height img \/
   (0 <= target_size self < 2 ^ 31 /\
    new_allocates (mode img) (target_size self) (target_size self) = true /\
    exists ink,
      fill_ink (mode img)
        (if String.eqb (mode img) "RGB" then pad_color else [114]) = Ok ink) ->
   exists c, apply_padding self img pad_color = Ok c).
Proof.
  split.
  - intros c. apply padding_square_stable.
  - intros [E|(T & A & ink & I)].
    + exists img. apply apply_padding_square, E.
    + destruct (Z.eq_dec (width img) (height img)) as [E|N].
      * exists img. apply apply_padding_square, E.
      * rewrite (apply_padding_not_square self img pad_color ink N T A I).
        eexists. reflexivity.
Qed.

(** ** store_image *)

(** X4: for an output directory that is not empty and does not end in the
    separator, store_image saves at output_dir + "/" + name, where name
    holds no separator and is the end of the original path after a
    directory part that is empty or ends in the separator: whatever the
    original path, the file lands directly inside output_dir. *)
Theorem store_image_lands_in_output_dir (img : Image)
  (original_img_path output_dir : string) (w : W) :
  output_dir <> "" -> PosixPath.endswith_sep output_dir = false ->
  exists dir name,
    original_img_path = dir ++ name /\
    (dir = "" \/ PosixPath.endswith_sep dir = true) /\
    PosixPath.rfind_sep name = -1 /\
    store_image img original_img_path output_dir w =
      Image_save img (output_dir ++ "/" ++ name) w.
Proof.
  intros N E.
  destruct (basename_split original_img_path) as (dir & S & D).
  exists dir, (PosixPath.basename original_img_path).
  split; [exact S|]. split; [exact D|].
  pose proof (PosixPathFacts.basename_no_sep original_img_path) as B.
  split; [exact B|].
  unfold store_image, PosixPath.join.
  rewrite (PosixPathFacts.no_sep_not_startswith _ B), E.
  replace (String.eqb output_dir "") with false
    by (symmetry; apply String.eqb_neq, N).
  reflexivity.
Qed.

(** X5: for the name of a directory entry (no separator in it), the image
    read at join(source_folder, name) is stored at join(output_dir, name):
    the loop of process_images_in_folder keeps every entry's name. *)
Theorem entry_is_stored_under_its_name (img : Image)
  (folder img_file output_dir : string) (w : W) :
  PosixPath.rfind_sep img_file = -1 ->
  store_image img (PosixPath.join folder img_file) output_dir w =
    Image_save img (PosixPath.join output_dir img_file) w.
Proof.
  intros N. unfold store_image.
  rewrite (PosixPathFacts.basename_join folder img_file N). reflexivity.
Qed.

(** ** process_single_image *)

(** X6: let Image.open give an image of positive sides that is square or
    whose shorter side times target_size exceeds its longer side, with
    target_size from 1 to 2^31 - 1 and max(width, height) * target_size
    < 2^50; let the codec find the memory for the resized raster and for
    the canvas, and accept the fill colour, which is (114,114,114) for mode
    "RGB" and (114,) for any other mode.  Then process_single_image ends in
    the codec's save, at the join of the output directory with the base
    name of the image path, of an image in the opened image's mode and of
    size (target_size, target_size): the resized raster at the top-left
    corner and beyond it the ink of the fill colour, which is
    (114,114,114) in mode "RGB" and, in every other mode stored as 8-bit
    bands, 114 in the first band and 0 in the others. *)
Theorem single_image_is_saved_square (self : ImageProcessor)
  (image_path output_dir : string) (w w1 : W) (img : Image) (ink : pixel) :
  Image_open image_path w = (Ok img, w1) ->
  0 < width img -> 0 < height img -> 0 < target_size self < 2 ^ 31 ->
  Z.max (width img) (height img) * target_size self < 2 ^ 50 ->
  (width img = height img \/
   Z.max (width img) (height img) <
     Z.min (width img) (height img) * target_size self) ->
  (forall nw nh,
     new_dimensions (width img) (height img) (target_size self) = Ok (nw, nh) ->
     resize_allocates img nw nh = true) ->
  new_allocates (mode img) (target_size self) (target_size self) = true ->
  fill_ink (mode img)
    (if String.eqb (mode img) "RGB" then default_pad_color else [114]) = Ok ink ->
  (exists r padded,
     resize_to_square self img default_dimension = Ok r /\
     process_single_image self image_path output_dir w =
       Image_save padded
         (PosixPath.join output_dir (PosixPath.basename image_path)) w1 /\
     mode padded = mode img /\
     Image_size padded = (target_size self, target_size self) /\
     forall x y, 0 <= x < target_size self -> 0 <= y < target_size self ->
       getpixel padded x y =
         if ((x <? width r) && (y <? height r))%bool
         then getpixel r x y
         else ink) /\
  (mode img = "RGB" -> ink = [Int 114; Int 114; Int 114]) /\
  (mode img <> "RGB" ->
     forall n, bands8 (mode img) = Some n ->
       ink = Int 114 :: repeat (Int 0) (Z.to_nat (n - 1))).
Proof.
  intros O Hw Hh Ht Hb Hg Hm Ha Hi.
  split; [|split].
  - destruct (resize_shape self img default_dimension Hw Hh Ht Hb Hm Hg)
      as (r & R & M & Bw & Bh & Side & _ & _).
    change (dimension_or_target self default_dimension) with (target_size self)
      in Bw, Bh, Side.
    assert (P : exists padded,
      apply_padding self r default_pad_color = Ok padded /\
      mode padded = mode img /\
      Image_size padded = (target_size self, target_size self) /\
      forall x y, 0 <= x < target_size self -> 0 <= y < target_size self ->
        getpixel padded x y =
          if ((x <? width r) && (y <? height r))%bool
          then getpixel r x y
          else ink).
    { destruct (Z.eq_dec (width r) (height r)) as [E|N].
      - exists r. split; [apply apply_padding_square, E|]. split; [exact M|].
        split; [unfold Image_size; f_equal; lia|].
        intros x y Hx Hy.
        replace (x <? width r) with true by (symmetry; apply Z.ltb_lt; lia).
        replace (y <? height r) with true by (symmetry; apply Z.ltb_lt; lia).
        reflexivity.
      - rewrite <- M in Ha, Hi.
        destruct (apply_padding_pixels self r default_pad_color ink N
                    ltac:(lia) Ha Hi) as (c & A & Mc & Sc & Pc).
        exists c. split; [exact A|]. split; [congruence|]. split; [exact Sc|].
        exact Pc. }
    destruct P as (padded & A & Mp & Sp & Pp).
    exists r, padded. split; [exact R|].
    split; [|split; [exact Mp | split; [exact Sp | exact Pp]]].
    unfold process_single_image, io_bind, io_lift.
    rewrite O, R, A. reflexivity.
  - intros M. rewrite M in Hi.
    change (String.eqb "RGB" "RGB") with true in Hi. cbv iota in Hi.
    unfold default_pad_color in Hi.
    rewrite (fill_ink_RGB 114 114 114) in Hi by lia.
    injection Hi as <-. reflexivity.
  - intros M n B.
    replace (String.eqb (mode img) "RGB") with false in Hi
      by (symmetry; apply String.eqb_neq, M).
    rewrite (fill_ink_114 (mode img) n B) in Hi. injection Hi as <-. reflexivity.
Qed.

(** X7: let Image.open give an image of positive sides whose shorter side
    times target_size is below its longer side, with target_size from 1 to
    2^31 - 1 and max(width, height) * target_size < 2^50, and let the codec
    find the memory the resize needs.  Then process_single_image raises the
    codec's ValueError right after opening: nothing is saved. *)
Theorem single_image_elongated_aborts (self : ImageProcessor)
  (image_path output_dir : string) (w w1 : W) (img : Image) :
  Image_open image_path w = (Ok img, w1) ->
  0 < width img -> 0 < height img -> 0 < target_size self < 2 ^ 31 ->
  Z.max (width img) (height img) * target_size self < 2 ^ 50 ->
  (forall nw nh,
     new_dimensions (width img) (height img) (target_size self) = Ok (nw, nh) ->
     resize_allocates img nw nh = true) ->
  Z.min (width img) (height img) * target_size self <
    Z.max (width img) (height img) ->
  process_single_image self image_path output_dir w =
    (Raise (ValueError "height and width must be > 0"), w1).
Proof.
  intros O Hw Hh Ht Hb Hm He.
  destruct (resize_elongated self img default_dimension Hw Hh Ht Hb Hm He)
    as [_ R].
  unfold process_single_image, io_bind, io_lift.
  rewrite O, R. reflexivity.
Qed.

(** ** process_images_in_folder *)

Lemma process_images_in_folder_loop (self : ImageProcessor) (w w1 w2 : W)
  (entries : list string) :
  isdir (source_folder self) w = true ->
  makedirs (PosixPath.join OUTPUT_FOLDER (strftime DATE_FORMAT (now w))) w =
    (Ok tt, w1) ->
  listdir (source_folder self) w1 = (Ok entries, w2) ->
  process_images_in_folder self w =
    for_each entries (fun img_file =>
      process_single_image self
        (PosixPath.join (source_folder self) img_file)
        (PosixPath.join OUTPUT_FOLDER (strftime DATE_FORMAT (now w)))) w2.
Proof.
  intros D Mk L. unfold process_images_in_folder. rewrite D. simpl negb. cbv iota.
  unfold io_bind, create_output_folder. rewrite Mk, L. reflexivity.
Qed.

(** X8: the batch stops at the first entry that fails.  When the source
    folder exists, the output directory is made and the listing is
    pre ++ bad :: post, the entries of pre are processed and processing bad
    raises e, then process_images_in_folder raises e in the world that
    failure left: what pre wrote stays, and no entry of post is touched. *)
Theorem batch_stops_at_first_failure (self : ImageProcessor)
  (w w1 w2 w3 w4 : W) (pre post : list string) (bad : string) (e : exn) :
  isdir (source_folder self) w = true ->
  makedirs (PosixPath.join OUTPUT_FOLDER (strftime DATE_FORMAT (now w))) w =
    (Ok tt, w1) ->
  listdir (source_folder self) w1 = (Ok (pre ++ bad :: post)%list, w2) ->
  for_each pre (fun img_file =>
    process_single_image self
      (PosixPath.join (source_folder self) img_file)
      (PosixPath.join OUTPUT_FOLDER (strftime DATE_FORMAT (now w)))) w2 =
    (Ok tt, w3) ->
  process_single_image self
    (PosixPath.join (source_folder self) bad)
    (PosixPath.join OUTPUT_FOLDER (strftime DATE_FORMAT (now w))) w3 =
    (Raise e, w4) ->
  process_images_in_folder self w = (Raise e, w4).
Proof.
  intros D Mk L Pre Bad.
  rewrite (process_images_in_folder_loop self w w1 w2 _ D Mk L).
  rewrite for_each_app, Pre. cbn [for_each]. unfold io_bind at 1.
  rewrite Bad. reflexivity.
Qed.

(** X9: the batch returns normally under a loop invariant.  When the
    source folder exists, the output directory is made, the world after the
    listing satisfies Inv, and from any world satisfying Inv every listed
    entry is processed without an exception into a world satisfying Inv
    again, then process_images_in_folder returns normally in a world
    satisfying Inv; an empty listing is such a case. *)
Theorem batch_returns_under_invariant (self : ImageProcessor)
  (w w1 w2 : W) (entries : list string) (Inv : W -> Prop) :
  isdir (source_folder self) w = true ->
  makedirs (PosixPath.join OUTPUT_FOLDER (strftime DATE_FORMAT (now w))) w =
    (Ok tt, w1) ->
  listdir (source_folder self) w1 = (Ok entries, w2) ->
  Inv w2 ->
  (forall img_file v, In img_file entries -> Inv v ->
     exists v',
       process_single_image self
         (PosixPath.join (source_folder self) img_file)
         (PosixPath.join OUTPUT_FOLDER (strftime DATE_FORMAT (now w))) v =
         (Ok tt, v') /\ Inv v') ->
  exists w', process_images_in_folder self w = (Ok tt, w') /\ Inv w'.
Proof.
  intros D Mk L I All.
  rewrite (process_images_in_folder_loop self w w1 w2 _ D Mk L).
  apply for_each_invariant; assumption.
Qed.

(** ** create_output_folder *)

(** X10: two calls of create_output_folder that return the same path read
    the same year, month, day, hour, minute and second (for valid clock
    readings with a four-digit year): runs started in different seconds
    never share an output folder. *)
Theorem output_folders_differ_across_seconds (self self' : ImageProcessor)
  (w w' : W) :
  valid_datetime (now w) -> 1000 <= year (now w) ->
  valid_datetime (now w') -> 1000 <= year (now w') ->
  fst (create_output_folder self w) = fst (create_output_folder self' w') ->
  now w = now w'.
Proof.
  intros V Y V' Y' E.
  assert (J : forall ts, all_digits ts = true ->
              PosixPath.join OUTPUT_FOLDER ts = "dataset/" ++ ts).
  { intros ts A. unfold PosixPath.join.
    rewrite (digits_not_startswith_sep _ A). reflexivity. }
  pose proof (timestamp_fourteen_digits _ V Y) as D.
  pose proof (timestamp_fourteen_digits _ V' Y') as D'.
  unfold digits_of_length in D, D'.
  apply andb_true_iff in D as [_ D]. apply andb_true_iff in D' as [_ D'].
  unfold create_output_folder in E. cbn [fst] in E.
  rewrite (J _ D), (J _ D') in E.
  apply strftime_DATE_FORMAT_inj; try assumption.
  apply (append_inv_head "dataset/"). congruence.
Qed.

(** ** main.py *)

(** X11: main checks the folder join(os.getcwd(), "input_images"), which
    for a working directory that is not empty and does not end in the
    separator is cwd + "/input_images"; when that is not an existing
    directory main raises the invalid-source-folder ValueError and leaves
    the world as it was. *)
Theorem main_needs_input_images (w : W) :
  getcwd w <> "" -> PosixPath.endswith_sep (getcwd w) = false ->
  isdir (getcwd w ++ "/input_images") w = false ->
  main w = (Raise invalid_source_folder, w).
Proof.
  intros N E D. unfold main, process_images_in_folder, __init__.
  cbn [source_folder]. unfold PosixPath.join.
  change (PosixPath.startswith_sep "input_images") with false. cbv iota.
  replace (String.eqb (getcwd w) "") with false
    by (symmetry; apply String.eqb_neq, N).
  rewrite E. simpl orb. cbv iota.
  change (String PosixPath.sep "input_images") with "/input_images".
  rewrite D. reflexivity.
Qed.

End PipelineFacts.

(** * The further properties on concrete inputs *)

Lemma resize_fits_and_keeps_orientation_witness :
  0 < 800 /\ 0 < 400 /\ 0 < 640 < 2 ^ 31 /\ Z.max 800 400 * 640 < 2 ^ 50 /\
  (forall nw nh, new_dimensions 800 400 640 = Ok (nw, nh) ->
     sim_allocates nw nh = true) /\
  (800 = 400 \/ Z.max 800 400 < Z.min 800 400 * 640) /\
  exists r,
    resize_to_square (H := SimPlatform) default_processor
      (gradient "RGB" 800 400) default_dimension = Ok r /\
    mode r = "RGB" /\
    1 <= width r <= 640 /\
    1 <= height r <= 640 /\
    (width r = 640 \/ height r = 640) /\
    (800 < 400 <-> width r < height r) /\
    (800 = 400 <-> width r = height r).
Proof.
  assert (M : forall nw nh, new_dimensions 800 400 640 = Ok (nw, nh) ->
                sim_allocates nw nh = true).
  { intros nw nh E. vm_compute in E. injection E as <- <-. reflexivity. }
  split; [reflexivity|]. split; [reflexivity|]. split; [split; reflexivity|].
  split; [reflexivity|]. split; [exact M|]. split; [right; reflexivity|].
  apply (resize_fits_and_keeps_orientation (H := SimPlatform) default_processor
           (gradient "RGB" 800 400) default_dimension);
    [reflexivity | reflexivity | split; reflexivity | reflexivity
    | exact M | right; reflexivity].
Defined.

Lemma resize_refuses_elongated_image_witness :
  0 < 1000 /\ 0 < 1 /\ 0 < 640 < 2 ^ 31 /\ Z.max 1000 1 * 640 < 2 ^ 50 /\
  (forall nw nh, new_dimensions 1000 1 640 = Ok (nw, nh) ->
     sim_allocates nw nh = true) /\
  Z.min 1000 1 * 640 < Z.max 1000 1 /\
  new_dimensions 1000 1 640 = Ok (640, 0) /\
  resize_to_square (H := SimPlatform) default_processor
    (gradient "RGB" 1000 1) default_dimension =
    Raise (ValueError "height and width must be > 0").
Proof.
  assert (M : forall nw nh, new_dimensions 1000 1 640 = Ok (nw, nh) ->
                sim_allocates nw nh = true).
  { intros nw nh E. vm_compute in E. injection E as <- <-. reflexivity. }
  split; [reflexivity|]. split; [reflexivity|]. split; [split; reflexivity|].
  split; [reflexivity|]. split; [exact M|]. split; [reflexivity|].
  apply (resize_refuses_elongated_image (H := SimPlatform) default_processor
           (gradient "RGB" 1000 1) default_dimension);
    [reflexivity | reflexivity | split; reflexivity | reflexivity
    | exact M | reflexivity].
Defined.

Lemma padding_is_square_and_idempotent_witness :
  exists c,
    apply_padding (H := SimPlatform) default_processor
      (gradient "RGB" 640 320) default_pad_color = Ok c /\
    width c = height c /\
    forall pad_color', apply_padding default_processor c pad_color' = Ok c.
Proof.
  destruct (padding_is_square_and_idempotent (H := SimPlatform)
              default_processor (gradient "RGB" 640 320) default_pad_color)
    as [S R].
  destruct R as [c E].
  { right. split; [concrete|]. split; [reflexivity|].
    exists [Int 114; Int 114; Int 114]. reflexivity. }
  exists c. split; [exact E|]. apply (S c E).
Defined.

Lemma store_image_lands_in_output_dir_witness :
  noon_folder <> "" /\ PosixPath.endswith_sep noon_folder = false /\
  exists dir name,
    "/home/user/input_images/wide.png" = dir ++ name /\
    (dir = "" \/ PosixPath.endswith_sep dir = true) /\
    PosixPath.rfind_sep name = -1 /\
    store_image (gradient "RGB" 640 640) "/home/user/input_images/wide.png"
      noon_folder sample_world =
      Image_save (gradient "RGB" 640 640) (noon_folder ++ "/" ++ name)
        sample_world.
Proof.
  split; [discriminate|]. split; [reflexivity|].
  apply (store_image_lands_in_output_dir (H := SimPlatform)
           (gradient "RGB" 640 640) "/home/user/input_images/wide.png"
           noon_folder sample_world); [discriminate | reflexivity].
Defined.

Lemma entry_is_stored_under_its_name_witness :
  PosixPath.rfind_sep "wide.png" = -1 /\
  store_image (gradient "RGB" 640 640)
    (PosixPath.join "/home/user/input_images" "wide.png") noon_folder
    sample_world =
    Image_save (gradient "RGB" 640 640)
      (PosixPath.join noon_folder "wide.png") sample_world.
Proof.
  split; [reflexivity|].
  apply (entry_is_stored_under_its_name (H := SimPlatform)
           (gradient "RGB" 640 640) "/home/user/input_images" "wide.png"
           noon_folder sample_world).
  reflexivity.
Defined.

Lemma single_image_is_saved_square_witness :
  Image_open "/home/user/input_images/wide.png" sample_world =
    (Ok (gradient "RGB" 800 400), sample_world) /\
  0 < 800 /\ 0 < 400 /\ 0 < 640 < 2 ^ 31 /\ Z.max 800 400 * 640 < 2 ^ 50 /\
  (800 = 400 \/ Z.max 800 400 < Z.min 800 400 * 640) /\
  (forall nw nh, new_dimensions 800 400 640 = Ok (nw, nh) ->
     sim_allocates nw nh = true) /\
  sim_allocates 640 640 = true /\
  fill_ink (H := SimPlatform) "RGB" default_pad_color =
    Ok [Int 114; Int 114; Int 114] /\
  exists r padded,
    resize_to_square (H := SimPlatform) folder_processor
      (gradient "RGB" 800 400) default_dimension = Ok r /\
    process_single_image folder_processor "/home/user/input_images/wide.png"
      noon_folder sample_world =
      Image_save padded
        (PosixPath.join noon_folder
           (PosixPath.basename "/home/user/input_images/wide.png"))
        sample_world /\
    mode padded = "RGB" /\
    Image_size padded = (640, 640) /\
    forall x y, 0 <= x < 640 -> 0 <= y < 640 ->
      getpixel padded x y =
        if ((x <? width r) && (y <? height r))%bool
        then getpixel r x y
        else [Int 114; Int 114; Int 114].
Proof.
  assert (M : forall nw nh, new_dimensions 800 400 640 = Ok (nw, nh) ->
                sim_allocates nw nh = true).
  { intros nw nh E. vm_compute in E. injection E as <- <-. reflexivity. }
  split; [reflexivity|]. split; [reflexivity|]. split; [reflexivity|].
  split; [split; reflexivity|]. split; [reflexivity|].
  split; [right; reflexivity|]. split; [exact M|].
  split; [reflexivity|]. split; [reflexivity|].
  apply (single_image_is_saved_square (H := SimPlatform) folder_processor
           "/home/user/input_images/wide.png" noon_folder
           sample_world sample_world (gradient "RGB" 800 400)
           [Int 114; Int 114; Int 114]);
    [reflexivity | reflexivity | reflexivity | split; reflexivity
    | reflexivity | right; reflexivity | exact M | reflexivity | reflexivity].
Defined.

(** The grey-level sample file: the canvas beyond the resized raster holds
    114. *)
Example tall_image_is_saved_square :
  exists padded w',
    process_single_image folder_processor "/home/user/input_images/tall.jpg"
      noon_folder sample_world = (Ok tt, w') /\
    lookup_file "dataset/20240307120509/tall.jpg" (sim_files w') = Some padded /\
    mode padded = "L" /\
    Image_size padded = (640, 640) /\
    getpixel padded 639 639 = [Int 114].
Proof. do 2 eexists. repeat split. Qed.

Lemma single_image_elongated_aborts_witness :
  Image_open "/home/user/input_images/strip.png" strip_world =
    (Ok (gradient "RGB" 1000 1), strip_world) /\
  0 < 1000 /\ 0 < 1 /\ 0 < 640 < 2 ^ 31 /\ Z.max 1000 1 * 640 < 2 ^ 50 /\
  (forall nw nh, new_dimensions 1000 1 640 = Ok (nw, nh) ->
     sim_allocates nw nh = true) /\
  Z.min 1000 1 * 640 < Z.max 1000 1 /\
  process_single_image folder_processor "/home/user/input_images/strip.png"
    noon_folder strip_world =
    (Raise (ValueError "height and width must be > 0"), strip_world).
Proof.
  assert (M : forall nw nh, new_dimensions 1000 1 640 = Ok (nw, nh) ->
                sim_allocates nw nh = true).
  { intros nw nh E. vm_compute in E. injection E as <- <-. reflexivity. }
  split; [reflexivity|]. split; [reflexivity|]. split; [reflexivity|].
  split; [split; reflexivity|]. split; [reflexivity|]. split; [exact M|].
  split; [reflexivity|].
  apply (single_image_elongated_aborts (H := SimPlatform) folder_processor
           "/home/user/input_images/strip.png" noon_folder
           strip_world strip_world (gradient "RGB" 1000 1));
    [reflexivity | reflexivity | reflexivity | split; reflexivity
    | reflexivity | exact M | reflexivity].
Defined.

Lemma batch_stops_at_first_failure_witness :
  isdir (source_folder folder_processor) strip_world = true /\
  makedirs
    (PosixPath.join OUTPUT_FOLDER (strftime DATE_FORMAT (now strip_world)))
    strip_world = (Ok tt, strip_made) /\
  listdir (source_folder folder_processor) strip_made =
    (Ok (["wide.png"] ++ "strip.png" :: ["tall.jpg"])%list, strip_made) /\
  for_each ["wide.png"] (fun img_file =>
    process_single_image folder_processor
      (PosixPath.join (source_folder folder_processor) img_file)
      (PosixPath.join OUTPUT_FOLDER (strftime DATE_FORMAT (now strip_world))))
    strip_made = (Ok tt, strip_after_wide) /\
  process_single_image folder_processor
    (PosixPath.join (source_folder folder_processor) "strip.png")
    (PosixPath.join OUTPUT_FOLDER (strftime DATE_FORMAT (now strip_world)))
    strip_after_wide =
    (Raise (ValueError "height and width must be > 0"), strip_after_wide) /\
  process_images_in_folder folder_processor strip_world =
    (Raise (ValueError "height and width must be > 0"), strip_after_wide).
Proof.
  split; [reflexivity|]. split; [reflexivity|]. split; [reflexivity|].
  split; [reflexivity|]. split; [reflexivity|].
  apply (batch_stops_at_first_failure (H := SimPlatform) folder_processor
           strip_world strip_made strip_made strip_after_wide strip_after_wide
           ["wide.png"] ["tall.jpg"] "strip.png"
           (ValueError "height and width must be > 0")); reflexivity.
Defined.

(** After the failed run only the first entry has an output file. *)
Example outputs_after_failed_batch :
  map fst (sim_files (snd (process_images_in_folder folder_processor strip_world))) =
    ["dataset/20240307120509/wide.png";
     "/home/user/input_images/wide.png";
     "/home/user/input_images/strip.png";
     "/home/user/input_images/tall.jpg"].
Proof. reflexivity. Qed.

Lemma output_folders_differ_across_seconds_witness :
  valid_datetime (now sample_world) /\ 1000 <= year (now sample_world) /\
  valid_datetime (now strip_world) /\ 1000 <= year (now strip_world) /\
  fst (create_output_folder default_processor sample_world) =
    fst (create_output_folder folder_processor strip_world) /\
  now sample_world = now strip_world.
Proof.
  assert (V : valid_datetime noon) by (unfold valid_datetime; simpl; lia).
  split; [exact V|]. split; [simpl; lia|].
  split; [exact V|]. split; [simpl; lia|]. split; [reflexivity|].
  apply (output_folders_differ_across_seconds (H := SimPlatform)
           default_processor folder_processor sample_world strip_world);
    [exact V | simpl; lia | exact V | simpl; lia | reflexivity].
Defined.

Lemma main_needs_input_images_witness :
  getcwd bare_world <> "" /\
  PosixPath.endswith_sep (getcwd bare_world) = false /\
  isdir (getcwd bare_world ++ "/input_images") bare_world = false /\
  main bare_world = (Raise invalid_source_folder, bare_world).
Proof.
  split; [discriminate|]. split; [reflexivity|]. split; [reflexivity|].
  apply (main_needs_input_images (H := SimPlatform) bare_world);
    [discriminate | reflexivity | reflexivity].
Defined.

(** In a world that still holds the two sample files, each of them is
    processed without an exception, and both are still there afterwards. *)
Lemma sample_entry_keeps_sources (img_file : string) (v : SimWorld) :
  In img_file ["wide.png"; "tall.jpg"] -> sources_kept v ->
  exists v',
    process_single_image folder_processor
      (PosixPath.join (source_folder folder_processor) img_file)
      (PosixPath.join OUTPUT_FOLDER (strftime DATE_FORMAT (now sample_world))) v =
      (Ok tt, v') /\ sources_kept v'.
Proof.
  intros [<-|[<-|[]]] [I1 I2].
  - unfold process_single_image, io_bind, io_lift.
    change (Image_open
              (PosixPath.join (source_folder folder_processor) "wide.png") v)
      with (sim_open "/home/user/input_images/wide.png" v).
    unfold sim_open. rewrite I1.
    eexists. split; [reflexivity|].
    split; [exact I1 | exact I2].
  - unfold process_single_image, io_bind, io_lift.
    change (Image_open
              (PosixPath.join (source_folder folder_processor) "tall.jpg") v)
      with (sim_open "/home/user/input_images/tall.jpg" v).
    unfold sim_open. rewrite I2.
    eexists. split; [reflexivity|].
    split; [exact I1 | exact I2].
Qed.

Lemma batch_returns_under_invariant_witness :
  isdir (source_folder folder_processor) sample_world = true /\
  makedirs
    (PosixPath.join OUTPUT_FOLDER (strftime DATE_FORMAT (now sample_world)))
    sample_world = (Ok tt, sample_made) /\
  listdir (source_folder folder_processor) sample_made =
    (Ok ["wide.png"; "tall.jpg"], sample_made) /\
  sources_kept sample_made /\
  (forall img_file v, In img_file ["wide.png"; "tall.jpg"] -> sources_kept v ->
     exists v',
       process_single_image folder_processor
         (PosixPath.join (source_folder folder_processor) img_file)
         (PosixPath.join OUTPUT_FOLDER
            (strftime DATE_FORMAT (now sample_world))) v =
         (Ok tt, v') /\ sources_kept v') /\
  exists w',
    process_images_in_folder folder_processor sample_world = (Ok tt, w') /\
    sources_kept w'.
Proof.
  split; [reflexivity|]. split; [reflexivity|]. split; [reflexivity|].
  split; [split; reflexivity|]. split; [exact sample_entry_keeps_sources|].
  apply (batch_returns_under_invariant (H := SimPlatform) folder_processor
           sample_world sample_made sample_made ["wide.png"; "tall.jpg"]
           sources_kept);
    [reflexivity | reflexivity | reflexivity | split; reflexivity
    | exact sample_entry_keeps_sources].
Defined.

(** * More on the configuration *)

Section ConfigurationFacts.

Context {W : Type} `{Platform W}.

Lemma resize_below_one (self : ImageProcessor) (img : Image) (dimension : Z) :
  0 < width img -> 0 < height img ->
  dimension_or_target self dimension < 1 ->
  exists e, resize_to_square self img dimension = Raise e.
Proof.
  intros Hw Hh S. rewrite resize_to_square_unfold. unfold new_dimensions.
  remember (dimension_or_target self dimension) as size eqn:Es.
  destruct (width img >? height img).
  - destruct (PyNum.scale (height img) size (width img)) as [nh|e];
      cbn [rbind]; [|exists e; reflexivity].
    apply Image_resize_raises; [lia | exact Hw | exact Hh].
  - destruct (height img >? width img).
    + destruct (PyNum.scale (width img) size (height img)) as [nw|e];
        cbn [rbind]; [|exists e; reflexivity].
      apply Image_resize_raises; [lia | exact Hw | exact Hh].
    + cbn [rbind]. apply Image_resize_raises; [lia | exact Hw | exact Hh].
Qed.

(** X12: a processor whose target_size is below 1 never produces an
    output: for every opened image of positive sides resize_to_square (with
    the default dimension) raises, and process_single_image raises right
    after opening, before anything is saved. *)
Theorem nonpositive_target_size_saves_nothing (self : ImageProcessor)
  (image_path output_dir : string) (w w1 : W) (img : Image) :
  Image_open image_path w = (Ok img, w1) ->
  0 < width img -> 0 < height img ->
  target_size self < 1 ->
  exists e,
    resize_to_square self img default_dimension = Raise e /\
    process_single_image self image_path output_dir w = (Raise e, w1).
Proof.
  intros O Hw Hh T.
  destruct (resize_below_one self img default_dimension Hw Hh T) as [e R].
  exists e. split; [exact R|].
  unfold process_single_image, io_bind, io_lift. rewrite O, R. reflexivity.
Qed.

Lemma run_source_folder (ops : list operation) (self : ImageProcessor) (w : W) :
  source_folder (fst (run ops self w)) =
    last_source_folder ops (source_folder self).
Proof.
  revert self w. induction ops as [|op rest IH]; intros self w; [reflexivity|].
  cbn [run last_source_folder]. rewrite IH, call_source_folder.
  destruct op; reflexivity.
Qed.

(** X13: after any sequence of method calls the processor's source folder
    is the argument of the last set_source_folder among them, or the one it
    started with when there is none: no other method changes it, also when
    calls raise.  A batch run then is checked against that folder, and
    raises the invalid-source-folder ValueError, leaving the world as it is,
    when that folder is not an existing directory. *)
Theorem source_folder_is_the_last_one_set (ops : list operation)
  (self : ImageProcessor) (w : W) :
  source_folder (fst (run ops self w)) =
    last_source_folder ops (source_folder self) /\
  (isdir (last_source_folder ops (source_folder self)) (snd (run ops self w)) =
     false ->
   process_images_in_folder (fst (run ops self w)) (snd (run ops self w)) =
     (Raise invalid_source_folder, snd (run ops self w))).
Proof.
  split; [apply run_source_folder|].
  intros D. unfold process_images_in_folder.
  rewrite run_source_folder, D. reflexivity.
Qed.

End ConfigurationFacts.

Lemma nonpositive_target_size_saves_nothing_witness :
  Image_open "/home/user/input_images/wide.png" sample_world =
    (Ok (gradient "RGB" 800 400), sample_world) /\
  0 < 800 /\ 0 < 400 /\ 0 < 1 /\
  exists e,
    resize_to_square (H := SimPlatform) (__init__ None (Some 0))
      (gradient "RGB" 800 400) default_dimension = Raise e /\
    process_single_image (__init__ None (Some 0))
      "/home/user/input_images/wide.png" noon_folder sample_world =
      (Raise e, sample_world).
Proof.
  split; [reflexivity|]. split; [reflexivity|]. split; [reflexivity|].
  split; [reflexivity|].
  apply (nonpositive_target_size_saves_nothing (H := SimPlatform)
           (__init__ None (Some 0)) "/home/user/input_images/wide.png"
           noon_folder sample_world sample_world (gradient "RGB" 800 400));
    reflexivity.
Defined.

Lemma source_folder_is_the_last_one_set_witness :
  source_folder
    (fst (run [Set_source_folder "/home/user/input_images";
               Process_images_in_folder;
               Set_source_folder "/home/user/photos";
               Create_output_folder] default_processor sample_world)) =
    "/home/user/photos" /\
  (isdir "/home/user/photos"
     (snd (run [Set_source_folder "/home/user/input_images";
                Process_images_in_folder;
                Set_source_folder "/home/user/photos";
                Create_output_folder] default_processor sample_world)) = false ->
   process_images_in_folder
     (fst (run [Set_source_folder "/home/user/input_images";
                Process_images_in_folder;
                Set_source_folder "/home/user/photos";
                Create_output_folder] default_processor sample_world))
     (snd (run [Set_source_folder "/home/user/input_images";
                Process_images_in_folder;
                Set_source_folder "/home/user/photos";
                Create_output_folder] default_processor sample_world)) =
     (Raise invalid_source_folder,
      snd (run [Set_source_folder "/home/user/input_images";
                Process_images_in_folder;
                Set_source_folder "/home/user/photos";
                Create_output_folder] default_processor sample_world))).
Proof.
  exact (source_folder_is_the_last_one_set (H := SimPlatform)
           [Set_source_folder "/home/user/input_images";
            Process_images_in_folder;
            Set_source_folder "/home/user/photos";
            Create_output_folder] default_processor sample_world).
Defined.
